(** * KoCLIP training orchestration ([train.py])

    A shallow embedding of [train] and [save_checkpoint]: the epoch and step
    loops with gradient accumulation, the contrastive logits and the match
    count, logit-scale clamping, the warm-up computation and the bounded
    checkpoint retry.

    Conventions.
    - Python [int] values are [Z]; [//] and [%] are [Z.div] and [Z.modulo]
      (both round towards minus infinity, as in Python) guarded by the
      [ZeroDivisionError] that Python raises on a zero divisor.
    - Python exceptions are the [Raises] branch of [outcome].
    - Tensor entries and Python floats of the orchestration are exact
      rationals ([Q]); rounding is not modelled there.  What depends on
      IEEE-754 arithmetic is modelled on binary64 floats in [Float64]: the
      row normalisation on a zero norm, the rounding of the two logits
      products and the clamp of a NaN (torch computes in float32, which
      rounds, divides 0 by 0 and compares with NaN in the same way).
      [Logits] gives the two products over any scalar arithmetic.
    - The encoders, [torch.exp], [F.cross_entropy], autograd, the optimizer,
      the scheduler factory and [torch.save] are external: they are
      parameters of the model, and the forward pass is a function of the
      model and the batch.  [loss.mean()] on the scalar loss and the
      movement of tensors between devices change no value and are left out. *)

From Stdlib Require Import ZArith QArith Qminmax Qround Qreals List Bool Lia.
From Stdlib Require Import Floats Reals Lra.
From Equations Require Import Equations.
Import ListNotations.

Local Open Scope Z_scope.
Set Warnings "-notation-for-abbreviation,-inexact-float".

(** ** Python outcomes and integer arithmetic *)

Module Py.

(** The exceptions that [train] can raise by itself.  [InvalidEmbedding] is
    the error kind named by the specification; no statement of [train.py]
    raises it. *)
Inductive exn : Type :=
| ZeroDivisionError
| UnboundLocalError
| RuntimeError
| InvalidEmbedding.

Inductive outcome (A : Type) : Type :=
| Returns (a : A)
| Raises (e : exn).

Arguments Returns {A} a.
Arguments Raises {A} e.

Definition bind {A B : Type} (c : outcome A) (k : A -> outcome B) : outcome B :=
  match c with
  | Returns a => k a
  | Raises e => Raises e
  end.

(** [a // b] *)
Definition floordiv (a b : Z) : outcome Z :=
  if b =? 0 then Raises ZeroDivisionError else Returns (a / b).

(** [a % b] *)
Definition mod_ (a b : Z) : outcome Z :=
  if b =? 0 then Raises ZeroDivisionError else Returns (a mod b).

(** [x / n] for a float [x] and an int [n] *)
Definition truediv (x : Q) (n : Z) : outcome Q :=
  if n =? 0 then Raises ZeroDivisionError else Returns (x / inject_Z n)%Q.

(** [int(x)] for a float [x]: truncation towards zero. *)
Definition int (x : Q) : Z := Z.quot (Qnum x) (Zpos (Qden x)).

End Py.

Import Py.

Notation "x <- c ;; k" := (Py.bind c (fun x => k))
  (at level 61, c at next level, right associativity).

(** Inversion of a [bind] that returned. *)
Ltac inv_bind H :=
  match type of H with
  | Py.bind ?c _ = Returns _ =>
      let E := fresh "E" in
      destruct c eqn:E; cbn [Py.bind] in H; [|discriminate H]
  end.

(** ** Checkpoint persistence: [save_checkpoint] (lines 175-193) *)

Module Checkpoint.

(** The two [logger.info] messages of [save_checkpoint]. *)
Inductive message : Type :=
| SaveCheckpointTo      (* "Save checkpoint to {}" *)
| FailedAfter10Trails.  (* "Failed to save checkpoint after 10 trails." *)

Record save_state : Type := mkSave {
  save_num : Z;            (* the local counter of the source *)
  attempts : nat;          (* executions of the [try] body so far *)
  log : list message
}.

(** The loop variant: iterations left before [save_num] reaches 10. *)
Definition remaining (st : save_state) : nat := Z.to_nat (10 - save_num st).

(** The [while (save_num < 10)] loop.  [torch_save k] is the outcome of the
    [try] body (the call of [torch.save] and the success message) at its
    [k]-th execution, counting from 0; the bare [except:] catches whatever
    it raises. *)
Equations? save_loop (torch_save : nat -> outcome unit) (st : save_state)
  : save_state by wf (remaining st) lt :=
  save_loop torch_save st with Z_lt_dec (save_num st) 10 => {
    | right _ := st;
    | left _ with torch_save (attempts st) => {
        | Returns _ :=                                    (* break *)
            mkSave (save_num st) (S (attempts st)) (log st ++ [SaveCheckpointTo]);
        | Raises _ :=                                     (* save_num += 1 *)
            save_loop torch_save
              (mkSave (save_num st + 1) (S (attempts st)) (log st)) } }.
Proof. unfold remaining; cbn [save_num]; lia. Qed.

Definition save_checkpoint (torch_save : nat -> outcome unit)
  : outcome save_state :=
  let st := save_loop torch_save (mkSave 0 0 []) in
  Returns (if save_num st =? 10
           then mkSave (save_num st) (attempts st) (log st ++ [FailedAfter10Trails])
           else st).

(** The oracle of a save that fails exactly [n] times and then succeeds. *)
Definition fails_then_succeeds (n : nat) : nat -> outcome unit :=
  fun k => if (k <? n)%nat then Raises RuntimeError else Returns tt.

Definition always_fails : nat -> outcome unit := fun _ => Raises RuntimeError.

(** The [k]-th execution of the [try] body raises, or completes. *)
Definition failed (torch_save : nat -> outcome unit) (k : nat) : Prop :=
  exists e, torch_save k = Raises e.

Definition succeeded (torch_save : nat -> outcome unit) (k : nat) : Prop :=
  exists u, torch_save k = Returns u.

End Checkpoint.

(** ** Contrastive logits and match count (lines 84-88, 148-153) *)

Module LossEngine.

Definition matrix : Type := list (list Q).

(** Strict comparison of two entries. *)
Definition Qltb (x y : Q) : bool := negb (Qle_bool y x).

(** [s * m] for a 0-dimensional tensor [s]: every entry is multiplied. *)
Definition scale (s : Q) (m : matrix) : matrix := map (map (Qmult s)) m.

(** The sum of products that [@] computes for one entry. *)
Fixpoint dot (u v : list Q) : Q :=
  match u, v with
  | x :: u', y :: v' => (x * y + dot u' v')%Q
  | _, _ => 0%Q
  end.

(** [a @ b.t()]: entry [(i, j)] pairs row [i] of [a] with row [j] of [b]. *)
Definition matmul_t (a b : matrix) : matrix :=
  map (fun r => map (fun c => dot r c) b) a.

(** [logit_scale * image_features @ text_features.t()]; [*] and [@] have
    the same precedence and associate to the left. *)
Definition logits_per_image (logit_scale : Q) (image_features text_features : matrix)
  : matrix :=
  matmul_t (scale logit_scale image_features) text_features.

(** [logit_scale * text_features @ image_features.t()] *)
Definition logits_per_text (logit_scale : Q) (image_features text_features : matrix)
  : matrix :=
  matmul_t (scale logit_scale text_features) image_features.

(** The transpose of a matrix given by its rows. *)
Definition ncols (m : matrix) : nat :=
  match m with
  | [] => O
  | r :: _ => length r
  end.

Definition transpose (m : matrix) : matrix :=
  map (fun j => map (fun r => nth j r 0%Q) m) (seq 0 (ncols m)).

(** [torch.arange(n)] *)
Definition arange (n : nat) : list nat := seq 0 n.

(** Index of the first maximal element of [x :: l], where [x] sits at index
    [best] and [l] starts at index [i]. *)
Fixpoint argmax_from (l : list Q) (i best : nat) (bv : Q) : nat :=
  match l with
  | [] => best
  | x :: l' =>
      if Qltb bv x then argmax_from l' (S i) i x
      else argmax_from l' (S i) best bv
  end.

Definition argmax_list (l : list Q) : option nat :=
  match l with
  | [] => None
  | x :: l' => Some (argmax_from l' 1 0 x)
  end.

(** [t.argmax()] without [dim]: the index of the maximum of the flattened
    tensor; an empty tensor is refused. *)
Definition argmax (m : matrix) : outcome nat :=
  match argmax_list (concat m) with
  | Some k => Returns k
  | None => Raises RuntimeError
  end.

(** [(k == labels).sum()] for a 0-dimensional [k]: broadcast, then count. *)
Definition eq_sum (k : nat) (labels : list nat) : Z :=
  Z.of_nat (length (filter (Nat.eqb k) labels)).

(** The increment of line 88 (and 153):
    [(logits_per_image.argmax() == labels).sum()]. *)
Definition acc_increment (logits : matrix) : outcome Z :=
  k <- argmax logits ;;
  Returns (eq_sum k (arange (length logits))).

(** The specification's count: the rows whose own argmax, taken along the
    caption axis, is the row's index. *)
Fixpoint rowwise_matches_from (i : nat) (rows : matrix) : Z :=
  match rows with
  | [] => 0
  | r :: rows' =>
      (match argmax_list r with
       | Some j => if Nat.eqb j i then 1 else 0
       | None => 0
       end) + rowwise_matches_from (S i) rows'
  end.

Definition rowwise_matches (logits : matrix) : Z := rowwise_matches_from 0 logits.

(** [torch.clamp(x, lo, hi)] *)
Definition clamp (x lo hi : Q) : Q := Qmin (Qmax x lo) hi.

(** The upper bound written in lines 110 and 112. *)
Definition logit_scale_max : Q := 4.6052%Q.


End LossEngine.

(** ** The logits of lines 84-85 over any scalar arithmetic

    The same products as in [LossEngine], with the zero, the addition and
    the multiplication of the scalars as parameters: exact rationals,
    binary64 or float32 are instances. *)

Module Logits.

Section Arithmetic.

Context {F : Type}.
Variable zero : F.
Variable add mul : F -> F -> F.

Definition scale (s : F) (m : list (list F)) : list (list F) :=
  map (map (mul s)) m.

Fixpoint dot (u v : list F) : F :=
  match u, v with
  | x :: u', y :: v' => add (mul x y) (dot u' v')
  | _, _ => zero
  end.

Definition matmul_t (a b : list (list F)) : list (list F) :=
  map (fun r => map (fun c => dot r c) b) a.

(** [logit_scale * image_features @ text_features.t()] *)
Definition logits_per_image (logit_scale : F) (image_features text_features : list (list F))
  : list (list F) :=
  matmul_t (scale logit_scale image_features) text_features.

(** [logit_scale * text_features @ image_features.t()] *)
Definition logits_per_text (logit_scale : F) (image_features text_features : list (list F))
  : list (list F) :=
  matmul_t (scale logit_scale text_features) image_features.

Definition ncols (m : list (list F)) : nat :=
  match m with
  | [] => O
  | r :: _ => length r
  end.

Definition transpose (m : list (list F)) : list (list F) :=
  map (fun j => map (fun r => nth j r zero) m) (seq 0 (ncols m)).

End Arithmetic.

End Logits.

(** ** Binary64 floats: row normalisation (lines 76-77, 140-141), the
    logits (lines 84-85) and the clamp (lines 109-112) *)

Module Float64.

Definition fmatrix : Type := list (list float).

(** [row.norm()]: the square root of the sum of squares. *)
Definition norm (row : list float) : float :=
  PrimFloat.sqrt (fold_left (fun acc x => acc + x * x)%float row 0%float).

(** [m / m.norm(dim=-1, keepdim=True)] *)
Definition normalize (m : fmatrix) : fmatrix :=
  map (fun row => map (fun x => x / norm row)%float row) m.

(** Lines 76-77: the division is IEEE division, which raises nothing. *)
Definition normalization_step (image_features text_features : fmatrix)
  : outcome (fmatrix * fmatrix) :=
  Returns (normalize image_features, normalize text_features).

Definition has_nan (m : fmatrix) : bool :=
  existsb (existsb PrimFloat.is_nan) m.

(** Lines 84-85 in binary64: every product and every sum is rounded. *)
Definition logits_per_image (logit_scale : float) (image_features text_features : fmatrix)
  : fmatrix :=
  Logits.logits_per_image 0%float PrimFloat.add PrimFloat.mul
    logit_scale image_features text_features.

Definition logits_per_text (logit_scale : float) (image_features text_features : fmatrix)
  : fmatrix :=
  Logits.logits_per_text 0%float PrimFloat.add PrimFloat.mul
    logit_scale image_features text_features.

Definition transpose (m : fmatrix) : fmatrix := Logits.transpose 0%float m.

(** The maximum and the minimum of two floats as [torch.clamp] takes them:
    a NaN operand is the result. *)
Definition fmax (a b : float) : float :=
  if PrimFloat.is_nan a then a
  else if PrimFloat.is_nan b then b
  else if (a <? b)%float then b else a.

Definition fmin (a b : float) : float :=
  if PrimFloat.is_nan a then a
  else if PrimFloat.is_nan b then b
  else if (b <? a)%float then b else a.

(** [torch.clamp(x, lo, hi)] is [min(max(x, lo), hi)]. *)
Definition clamp (x lo hi : float) : float := fmin (fmax x lo) hi.

(** The upper bound written in lines 110 and 112, as a float. *)
Definition logit_scale_max : float := 4.6052%float.

(** Lines 109-112 on a float logit scale. *)
Definition clamp_logit_scale (n_gpu : Z) (ls : float) : float :=
  if n_gpu =? 1 then clamp ls 0 logit_scale_max
  else if n_gpu >? 1 then clamp ls 0 logit_scale_max
  else ls.

(** [float(n)] for a Python [int]: the nearest double (an infinity where
    Python raises [OverflowError]). *)
Definition of_int (n : Z) : float :=
  SF2Prim (binary_normalize prec emax n 0 false).

(** [int(x)]: truncation towards zero; [None] where Python raises, on NaN
    and on the infinities. *)
Definition to_int (x : float) : option Z :=
  match Prim2SF x with
  | S754_zero _ => Some 0
  | S754_finite s m e =>
      let v := if 0 <=? e then Zpos m * 2 ^ e else Zpos m / 2 ^ (- e) in
      Some (if s then - v else v)
  | _ => None
  end.

(** Line 39 in binary64: [int(0.20 * t_total)] *)
Definition warmup_steps (t : Z) : option Z :=
  to_int (0.20 * of_int t)%float.

(** The double [0.20] is [fifth_mantissa * 2^-55]. *)
Definition fifth_mantissa : positive := 7205759403792794.

End Float64.

(** ** The training orchestrator: [train] (lines 24-172) *)

Import LossEngine.

(** The fields of [config] that [train] reads. *)
Record config : Type := mkConfig {
  n_gpu : Z;
  gradient_accumulation_steps : Z;
  num_train_epochs : Z;
  logging_steps : Z;
  save_steps : Z;
  wandb : bool
}.

(** The scheduler built in line 40, with the number of [scheduler.step()]
    calls it has received. *)
Record scheduler_state : Type := mkScheduler {
  num_warmup_steps : Z;
  num_training_steps : Z;
  last_epoch : Z
}.

Definition get_cosine_schedule_with_warmup (warmup total : Z) : scheduler_state :=
  mkScheduler warmup total 0.

Definition scheduler_step (s : scheduler_state) : scheduler_state :=
  mkScheduler (num_warmup_steps s) (num_training_steps s) (last_epoch s + 1).

(** What the run does to its collaborators, in order. *)
Inductive event : Type :=
| OptimizerStep
| SchedulerStep
| ZeroGrad
| LoggerInfo (epoch global_step : Z)        (* line 120 *)
| SaveCheckpoint (epoch global_step : Z)    (* line 124 *)
| WandbLog                                  (* lines 102 and 166 *)
| ValidInfo (val_loss : Q) (val_img_acc : Z). (* line 168 *)

Definition is_optimizer_step (e : event) : bool :=
  match e with OptimizerStep => true | _ => false end.

Definition optimizer_steps (tr : list event) : Z :=
  Z.of_nat (length (filter is_optimizer_step tr)).

(** The [(epoch, global_step)] arguments of the [save_checkpoint] calls. *)
Fixpoint checkpoints (tr : list event) : list (Z * Z) :=
  match tr with
  | [] => []
  | SaveCheckpoint e g :: tr' => (e, g) :: checkpoints tr'
  | _ :: tr' => checkpoints tr'
  end.

(** Line 34: [len(train_dataloader) // gradient_accumulation_steps * num_train_epochs] *)
Definition t_total (cfg : config) (num_batches : Z) : outcome Z :=
  q <- Py.floordiv num_batches (gradient_accumulation_steps cfg) ;;
  Returns (q * num_train_epochs cfg).

(** Line 39: [int(0.20 * t_total)] *)
Definition warmup_steps (t : Z) : Z := Py.int (0.20 * inject_Z t)%Q.

(** Line 122: [(save_steps > 0 and global_step % save_steps == 0) or global_step == t_total] *)
Definition save_due (cfg : config) (gs t : Z) : outcome bool :=
  periodic <- (if save_steps cfg >? 0
               then r <- Py.mod_ gs (save_steps cfg) ;; Returns (r =? 0)
               else Returns false) ;;
  Returns (if periodic : bool then true else gs =? t).

(** The value of the test of line 122. *)
Definition should_save (cfg : config) (gs t : Z) : bool :=
  ((0 <? save_steps cfg) && (gs mod save_steps cfg =? 0)) || (gs =? t).

(** The events that only report metrics. *)
Definition is_report (e : event) : bool :=
  match e with
  | WandbLog | ValidInfo _ _ => true
  | _ => false
  end.

Section Orchestrator.

(** External collaborators. *)
Variable Batch : Type.
Variable Model : Type.      (* encoder parameters, buffers and gradients *)
Variable Optim : Type.      (* the optimizer's internal state *)

(** Lines 73-77: the forward pass followed by the row normalisation, in
    training ([true]) or evaluation ([false]) mode. *)
Variable features : Model -> bool -> Batch -> matrix * matrix.
(** [torch.exp] *)
Variable texp : Q -> Q.
(** [F.cross_entropy(logits, labels)] *)
Variable cross_entropy : matrix -> list nat -> Q.
(** [loss.backward()]: gradients accumulate in the model. *)
Variable backward : Model -> Q -> Batch -> Model.
(** [optimizer.step()] updates its own state, the encoder parameters and
    the raw logit scale. *)
Variable optimizer_step : Optim -> Model -> Q -> Optim * Model * Q.
(** [model.zero_grad()] *)
Variable zero_grad : Model -> Model.

(** The training state: [global_step], [global_loss], the model with its
    raw [logit_scale], the optimizer and the scheduler. *)
Record core : Type := mkCore {
  global_step : Z;
  global_loss : Q;
  model : Model;
  logit_scale : Q;
  optimizer : Optim;
  scheduler : scheduler_state
}.

(** The other local variables of [train] and the mode of the model. *)
Record locals : Type := mkLocals {
  training : bool;              (* [model.training] *)
  train_img_acc : Z;
  valid_loss : Q;
  valid_img : Q;
  valid_txt : Q;
  val_img_acc : Z;
  final_step : option Z         (* [None]: not bound yet *)
}.

Record state : Type := mkState {
  tr : core;
  ep : locals;
  trace : list event
}.

Record loss_components : Type := mkLoss {
  matches : Z;
  image_loss : Q;
  text_loss : Q;
  loss : Q
}.

(** Lines 79-82 (143-146): [logit_scale] is bound in the branches
    [n_gpu == 1] and [n_gpu > 1] only; otherwise line 84 finds it unbound. *)
Definition exp_logit_scale (cfg : config) (c : core) : outcome Q :=
  if n_gpu cfg =? 1 then Returns (texp (logit_scale c))
  else if n_gpu cfg >? 1 then Returns (texp (logit_scale c))
  else Raises UnboundLocalError.

(** Lines 73-92 (137-158): logits, labels, match count and the losses of
    one batch. *)
Definition loss_engine (cfg : config) (c : core) (mode : bool) (b : Batch)
  : outcome loss_components :=
  let '(image_features, text_features) := features (model c) mode b in
  s <- exp_logit_scale cfg c ;;
  let lpi := logits_per_image s image_features text_features in
  let lpt := logits_per_text s image_features text_features in
  let labels := arange (length lpi) in
  acc <- acc_increment lpi ;;
  let il := cross_entropy lpi labels in
  let tl := cross_entropy lpt labels in
  Returns (mkLoss acc il tl ((il + tl) / 2)%Q).

(** Lines 109-112 *)
Definition clamp_logit_scale (cfg : config) (ls : Q) : Q :=
  if n_gpu cfg =? 1 then clamp ls 0 logit_scale_max
  else if n_gpu cfg >? 1 then clamp ls 0 logit_scale_max
  else ls.

(** Lines 105-124: the body of [if (step + 1) % gradient_accumulation_steps == 0]. *)
Definition optimizer_boundary (cfg : config) (t : Z) (epoch : Z) (st : state)
  : outcome state :=
  let c := tr st in
  let gs := global_step c + 1 in
  let '(o, m, ls) := optimizer_step (optimizer c) (model c) (logit_scale c) in
  let c' := mkCore gs (global_loss c) (zero_grad m) (clamp_logit_scale cfg ls) o
              (scheduler_step (scheduler c)) in
  let tr1 := trace st ++ [OptimizerStep; SchedulerStep; ZeroGrad] in
  r <- Py.mod_ gs (logging_steps cfg) ;;
  let tr2 := if r =? 0 then tr1 ++ [LoggerInfo epoch gs] else tr1 in
  due <- save_due cfg gs t ;;
  let tr3 := if due : bool then tr2 ++ [SaveCheckpoint epoch gs] else tr2 in
  Returns (mkState c' (ep st) tr3).

(** Lines 67-124: one iteration of the training loop. *)
Definition train_batch (cfg : config) (t : Z) (epoch : Z) (st : state)
    (step : Z) (b : Batch) : outcome state :=
  let c := tr st in
  let e := ep st in
  lc <- loss_engine cfg c true b ;;
  let l := if gradient_accumulation_steps cfg >? 1
           then (loss lc / inject_Z (gradient_accumulation_steps cfg))%Q
           else loss lc in
  let c1 := mkCore (global_step c) (global_loss c + l)%Q
              (backward (model c) (logit_scale c) b) (logit_scale c)
              (optimizer c) (scheduler c) in
  let e1 := mkLocals (training e) (train_img_acc e + matches lc) (valid_loss e)
              (valid_img e) (valid_txt e) (val_img_acc e) (final_step e) in
  let st1 := mkState c1 e1 (if wandb cfg then trace st ++ [WandbLog] else trace st) in
  r <- Py.mod_ (step + 1) (gradient_accumulation_steps cfg) ;;
  if r =? 0 then optimizer_boundary cfg t epoch st1 else Returns st1.

(** Line 66: [for step, batch in enumerate(train_dataloader)] *)
Fixpoint train_batches (cfg : config) (t : Z) (epoch : Z) (step : Z)
    (bs : list Batch) (st : state) : outcome state :=
  match bs with
  | [] => Returns st
  | b :: bs' =>
      st' <- train_batch cfg t epoch st step b ;;
      train_batches cfg t epoch (step + 1) bs' st'
  end.

(** Lines 132-164: one iteration of the validation loop; [final_step] is
    bound by the loop header. *)
Definition valid_batch (cfg : config) (st : state) (idx : Z) (b : Batch)
  : outcome state :=
  let e := ep st in
  lc <- loss_engine cfg (tr st) false b ;;
  Returns (mkState (tr st)
             (mkLocals (training e) (train_img_acc e)
                (valid_loss e + loss lc)%Q (valid_img e + image_loss lc)%Q
                (valid_txt e + text_loss lc)%Q (val_img_acc e + matches lc)
                (Some idx))
             (trace st)).

Fixpoint valid_batches (cfg : config) (idx : Z) (bs : list Batch) (st : state)
  : outcome state :=
  match bs with
  | [] => Returns st
  | b :: bs' =>
      st' <- valid_batch cfg st idx b ;;
      valid_batches cfg (idx + 1) bs' st'
  end.

(** Lines 127-168: the validation pass of one epoch. *)
Definition validate (cfg : config) (vbs : list Batch) (st : state) : outcome state :=
  let e := ep st in
  let st0 := mkState (tr st)
               (mkLocals false (train_img_acc e) 0 0 0 0 (final_step e))
               (trace st) in
  st1 <- valid_batches cfg 0 vbs st0 ;;
  match final_step (ep st1) with
  | None => Raises UnboundLocalError
  | Some f =>
      let avg := (valid_loss (ep st1) / inject_Z (f + 1))%Q in
      let tr1 := if wandb cfg then trace st1 ++ [WandbLog] else trace st1 in
      Returns (mkState (tr st1) (ep st1) (tr1 ++ [ValidInfo avg (val_img_acc (ep st1))]))
  end.

(** Lines 64-168: one epoch. *)
Definition run_epoch (cfg : config) (t : Z) (tbs vbs : list Batch) (epoch : Z)
    (st : state) : outcome state :=
  let e := ep st in
  let st0 := mkState (tr st)
               (mkLocals true 0 (valid_loss e) (valid_img e) (valid_txt e)
                  (val_img_acc e) (final_step e))
               (trace st) in
  st1 <- train_batches cfg t epoch 0 tbs st0 ;;
  validate cfg vbs st1.

(** Line 63: [for epoch in range(int(config.num_train_epochs))] *)
Fixpoint run_epochs (cfg : config) (t : Z) (tbs vbs : list Batch) (n : nat)
    (epoch : Z) (st : state) : outcome state :=
  match n with
  | O => Returns st
  | S n' =>
      st' <- run_epoch cfg t tbs vbs epoch st ;;
      run_epochs cfg t tbs vbs n' (epoch + 1) st'
  end.

(** Lines 60-61: the state before the first epoch. *)
Definition initial_state (t : Z) (m : Model) (ls : Q) (o : Optim) : state :=
  mkState
    (mkCore 0 0 (zero_grad m) ls o
       (get_cosine_schedule_with_warmup (warmup_steps t) t))
    (mkLocals true 0 0 0 0 0 None)
    [].

(** Lines 29-169: everything before the [return]. *)
Definition train_loop (cfg : config) (tbs vbs : list Batch) (m : Model) (ls : Q)
    (o : Optim) : outcome state :=
  t <- t_total cfg (Z.of_nat (length tbs)) ;;
  run_epochs cfg t tbs vbs (Z.to_nat (num_train_epochs cfg)) 0
    (initial_state t m ls o).

(** [train]: line 172 returns [global_step, global_loss / global_step]. *)
Definition train (cfg : config) (tbs vbs : list Batch) (m : Model) (ls : Q)
    (o : Optim) : outcome (Z * Q) :=
  st <- train_loop cfg tbs vbs m ls o ;;
  avg <- Py.truediv (global_loss (tr st)) (global_step (tr st)) ;;
  Returns (global_step (tr st), avg).

End Orchestrator.

(** The encoder returns at least one image row and one text row for every
    batch ("no batch may have zero rows"). *)
Definition nonempty_features {Batch Model : Type}
    (features : Model -> bool -> Batch -> matrix * matrix) : Prop :=
  forall m mode b, fst (features m mode b) <> [] /\ snd (features m mode b) <> [].

Arguments global_step {Model Optim} c.
Arguments global_loss {Model Optim} c.
Arguments model {Model Optim} c.
Arguments logit_scale {Model Optim} c.
Arguments optimizer {Model Optim} c.
Arguments scheduler {Model Optim} c.
Arguments tr {Model Optim} s.
Arguments ep {Model Optim} s.
Arguments trace {Model Optim} s.
Arguments mkState {Model Optim} tr ep trace.
Arguments mkCore {Model Optim}.
Arguments exp_logit_scale {Model Optim} texp cfg c.
Arguments loss_engine {Batch Model Optim} features texp cross_entropy cfg c mode b.
Arguments optimizer_boundary {Model Optim} optimizer_step zero_grad cfg t epoch st.
Arguments train_batch {Batch Model Optim} features texp cross_entropy backward
  optimizer_step zero_grad cfg t epoch st step b.
Arguments train_batches {Batch Model Optim} features texp cross_entropy backward
  optimizer_step zero_grad cfg t epoch step bs st.
Arguments valid_batch {Batch Model Optim} features texp cross_entropy cfg st idx b.
Arguments valid_batches {Batch Model Optim} features texp cross_entropy cfg idx bs st.
Arguments validate {Batch Model Optim} features texp cross_entropy cfg vbs st.
Arguments run_epoch {Batch Model Optim} features texp cross_entropy backward
  optimizer_step zero_grad cfg t tbs vbs epoch st.
Arguments run_epochs {Batch Model Optim} features texp cross_entropy backward
  optimizer_step zero_grad cfg t tbs vbs n epoch st.
Arguments initial_state {Model Optim} zero_grad t m ls o.
Arguments train_loop {Batch Model Optim} features texp cross_entropy backward
  optimizer_step zero_grad cfg tbs vbs m ls o.
Arguments train {Batch Model Optim} features texp cross_entropy backward
  optimizer_step zero_grad cfg tbs vbs m ls o.

(** ** Concrete collaborators, to run the model on examples *)

Module Stub.

Definition features (_ : unit) (_ : bool) (_ : unit) : matrix * matrix :=
  ([[1; 0]; [0; 1]]%Q, [[1; 0]; [0.6; 0.8]]%Q).

Definition texp (x : Q) : Q := (1 + x)%Q.

Definition cross_entropy (_ : matrix) (_ : list nat) : Q := 1%Q.

Definition backward (m : unit) (_ : Q) (_ : unit) : unit := m.

(** An update that pushes the raw logit scale up by 5. *)
Definition optimizer_step (o m : unit) (ls : Q) : unit * unit * Q :=
  (o, m, (ls + 5)%Q).

Definition zero_grad (m : unit) : unit := m.

Definition cfg (A E save : Z) : config := mkConfig 1 A E 1 save false.

Definition train (c : config) (tbs vbs : list unit) : outcome (Z * Q) :=
  train features texp cross_entropy backward optimizer_step zero_grad
    c tbs vbs tt 0%Q tt.

Definition train_loop (c : config) (tbs vbs : list unit) : outcome (state unit unit) :=
  train_loop features texp cross_entropy backward optimizer_step zero_grad
    c tbs vbs tt 0%Q tt.

Definition start : state unit unit := initial_state zero_grad 1 tt 0%Q tt.

(** The first training iteration of a run. *)
Definition first_step (c : config) : outcome (state unit unit) :=
  train_batch features texp cross_entropy backward optimizer_step zero_grad
    c 1 0 start 0 tt.

Definition validate (c : config) (vbs : list unit) : outcome (state unit unit) :=
  validate features texp cross_entropy c vbs start.

End Stub.


(** ** Further definitions: schedules of events, the row maximum, [main] *)

(** [a; a + 1; ...; a + n - 1] *)
Fixpoint zseq (a : Z) (n : nat) : list Z :=
  match n with
  | O => []
  | S n' => a :: zseq (a + 1) n'
  end.

(** The [(epoch, global_step)] arguments of the training records of line 120. *)
Fixpoint loggings (tr : list event) : list (Z * Z) :=
  match tr with
  | [] => []
  | LoggerInfo e g :: tr' => (e, g) :: loggings tr'
  | _ :: tr' => loggings tr'
  end.

(** The value of the test of line 119. *)
Definition should_log (cfg : config) (gs : Z) : bool :=
  gs mod logging_steps cfg =? 0.

(** What a boundary that brings [global_step] to [g] does, in order
    (lines 106-124). *)
Definition boundary_events (cfg : config) (t epoch g : Z) : list event :=
  [OptimizerStep; SchedulerStep; ZeroGrad]
  ++ (if should_log cfg g then [LoggerInfo epoch g] else [])
  ++ (if should_save cfg g t then [SaveCheckpoint epoch g] else []).

(** The events of [n] consecutive training iterations that start at index
    [step] with [global_step = gs]. *)
Fixpoint train_events (cfg : config) (t epoch step gs : Z) (n : nat) : list event :=
  match n with
  | O => []
  | S n' =>
      let due := (step + 1) mod gradient_accumulation_steps cfg =? 0 in
      (if wandb cfg then [WandbLog] else [])
      ++ (if due then boundary_events cfg t epoch (gs + 1) else [])
      ++ train_events cfg t epoch (step + 1) (if due then gs + 1 else gs) n'
  end.

(** The steps selected by [P] in [n] epochs of [q] optimizer steps each,
    from epoch number [epoch] on and after [gs] steps, with their epoch. *)
Fixpoint schedule (P : Z -> bool) (q : Z) (n : nat) (epoch gs : Z) : list (Z * Z) :=
  match n with
  | O => []
  | S n' =>
      map (pair epoch) (filter P (zseq (gs + 1) (Z.to_nat q)))
      ++ schedule P q n' (epoch + 1) (gs + q)
  end.

(** The largest entry of [x :: l]. *)
Definition row_max (x : Q) (l : list Q) : Q :=
  fold_left (fun b y => if Qltb b y then y else b) l x.

(** Line 230: [config.n_gpu = torch.cuda.device_count()] *)
Definition set_n_gpu (cfg : config) (device_count : Z) : config :=
  mkConfig device_count (gradient_accumulation_steps cfg) (num_train_epochs cfg)
    (logging_steps cfg) (save_steps cfg) (wandb cfg).

(** [main] (lines 229-251), from the merged configuration on: the GPU count
    of the machine replaces the configured one, [train] runs, and its result
    is what the last line logs.  Argument parsing, the configuration files,
    the logger and the construction of model and datasets are external. *)
Definition main {Batch Model Optim : Type}
    (features : Model -> bool -> Batch -> matrix * matrix) (texp : Q -> Q)
    (cross_entropy : matrix -> list nat -> Q)
    (backward : Model -> Q -> Batch -> Model)
    (optimizer_step : Optim -> Model -> Q -> Optim * Model * Q)
    (zero_grad : Model -> Model)
    (cfg : config) (device_count : Z) (tbs vbs : list Batch)
    (m : Model) (ls : Q) (o : Optim) : outcome (Z * Q) :=
  train features texp cross_entropy backward optimizer_step zero_grad
    (set_n_gpu cfg device_count) tbs vbs m ls o.

(** * Properties *)

(** ** Checkpoint persistence *)

Module CheckpointFacts.

Import Checkpoint.

(** The loop entered after [n] failures, with [d] iterations left. *)
Lemma save_loop_after_failures (torch_save : nat -> outcome unit)
    (d n : nat) (l : list message) :
  (n + d = 10)%nat ->
  (forall j, (j < n)%nat -> failed torch_save j) ->
  forall r, r = save_loop torch_save (mkSave (Z.of_nat n) n l) ->
  (exists k, (n <= k < 10)%nat /\ succeeded torch_save k
             /\ (forall j, (j < k)%nat -> failed torch_save j)
             /\ r = mkSave (Z.of_nat k) (S k) (l ++ [SaveCheckpointTo]))
  \/ ((forall j, (j < 10)%nat -> failed torch_save j) /\ r = mkSave 10 10 l).
Proof.
  revert n. induction d as [|d IH]; intros n Hn Hfail r ->.
  - assert (n = 10)%nat by lia. subst n.
    right. split; [exact Hfail|].
    rewrite save_loop_equation_1. cbn [save_num].
    destruct (Z_lt_dec (Z.of_nat 10) 10) as [Hlt|Hge]; [lia|reflexivity].
  - rewrite save_loop_equation_1. cbn [save_num attempts].
    destruct (Z_lt_dec (Z.of_nat n) 10) as [Hlt|Hge]; [|lia].
    cbn. destruct (torch_save n) as [u|e] eqn:Hts; cbn.
    + left. exists n. repeat split; try lia; [exists u; exact Hts | exact Hfail].
    + replace (Z.of_nat n + 1) with (Z.of_nat (S n)) by lia.
      assert (Hfail' : forall j, (j < S n)%nat -> failed torch_save j).
      { intros j Hj. destruct (Nat.eq_dec j n) as [->|Hne].
        - exists e. exact Hts.
        - apply Hfail. lia. }
      destruct (IH (S n) ltac:(lia) Hfail' _ eq_refl) as [(k & Hk & Hs & Hf & Hr)|[Hf Hr]].
      * left. exists k. repeat split; try lia; assumption.
      * right. split; assumption.
Qed.

Example save_after_nine_failures :
  save_checkpoint (fails_then_succeeds 9) = Returns (mkSave 9 10 [SaveCheckpointTo]).
Proof. reflexivity. Qed.

Example save_never_succeeds :
  save_checkpoint always_fails = Returns (mkSave 10 10 [FailedAfter10Trails]).
Proof. reflexivity. Qed.

Example save_at_once :
  save_checkpoint (fails_then_succeeds 0) = Returns (mkSave 0 1 [SaveCheckpointTo]).
Proof. reflexivity. Qed.

Lemma failed_not_succeeded torch_save k :
  failed torch_save k -> succeeded torch_save k -> False.
Proof. intros [e He] [u Hu]. congruence. Qed.

(** C2.  Whatever [torch.save] does, [save_checkpoint] returns normally
    after at most 10 attempts.  Either some attempt [k < 10] is the first
    to succeed: then exactly [k + 1] attempts were made, the counter holds
    the [k] swallowed failures and the only message is the success one; or
    all 10 attempts fail: then the counter is 10 and the failure message is
    logged.  A save that fails 9 times and then succeeds makes exactly 10
    attempts and logs success. *)
Theorem save_checkpoint_bounded_retry (torch_save : nat -> outcome unit) :
  exists r,
    save_checkpoint torch_save = Returns r
    /\ (attempts r <= 10)%nat
    /\ ((exists k, (k < 10)%nat /\ succeeded torch_save k
                   /\ (forall j, (j < k)%nat -> failed torch_save j)
                   /\ attempts r = S k /\ save_num r = Z.of_nat k
                   /\ log r = [SaveCheckpointTo])
        \/ ((forall j, (j < 10)%nat -> failed torch_save j)
            /\ attempts r = 10%nat /\ save_num r = 10
            /\ log r = [FailedAfter10Trails]))
    /\ ((forall j, (j < 9)%nat -> failed torch_save j) ->
        succeeded torch_save 9%nat ->
        attempts r = 10%nat /\ log r = [SaveCheckpointTo]).
Proof.
  unfold save_checkpoint.
  destruct (save_loop_after_failures torch_save 10 0 [] eq_refl
              ltac:(intros j Hj; lia) _ eq_refl)
    as [(k & Hk & Hs & Hf & Hr)|[Hf Hr]];
    change (Z.of_nat 0) with 0 in Hr; rewrite Hr; cbn [save_num attempts log].
  - assert (Hne : (Z.of_nat k =? 10) = false) by (apply Z.eqb_neq; lia).
    rewrite Hne. eexists; split; [reflexivity|]. cbn [save_num attempts log app].
    split; [lia|]. split.
    + left. exists k. repeat split; try lia; assumption.
    + intros H9 S9. destruct (Nat.lt_trichotomy k 9) as [Hlt|[->|Hgt]].
      * exfalso. apply (failed_not_succeeded torch_save k); auto.
      * split; reflexivity.
      * exfalso. apply (failed_not_succeeded torch_save 9); [apply Hf; lia | exact S9].
  - cbn. eexists; split; [reflexivity|]. cbn [save_num attempts log].
    split; [lia|]. split.
    + right. repeat split; auto.
    + intros _ S9. exfalso.
      apply (failed_not_succeeded torch_save 9); [apply Hf; lia | exact S9].
Qed.

(** The theorem at the oracle that fails 9 times and then succeeds. *)
Lemma save_checkpoint_bounded_retry_witness :
  exists r, save_checkpoint (fails_then_succeeds 9) = Returns r
            /\ attempts r = 10%nat /\ log r = [SaveCheckpointTo].
Proof.
  destruct (save_checkpoint_bounded_retry (fails_then_succeeds 9))
    as (r & Hr & _ & _ & H9).
  exists r. split; [exact Hr|]. apply H9.
  - intros j Hj. exists RuntimeError. unfold fails_then_succeeds.
    destruct (Nat.ltb_spec j 9); [reflexivity|lia].
  - exists tt. reflexivity.
Defined.

End CheckpointFacts.

(** ** Logits and match count *)

Module LossEngineFacts.


(** The entries of the transpose: entry [(j, i)] of the argument. *)
Lemma transpose_entry (m : matrix) (i j : nat) :
  (j < ncols m)%nat ->
  nth i (nth j (transpose m) []) 0%Q = nth j (nth i m []) 0%Q.
Proof.
  intros Hj. unfold transpose.
  rewrite (nth_indep _ [] (map (fun r => nth 0 r 0%Q) m))
    by (rewrite length_map, length_seq; exact Hj).
  rewrite (map_nth (fun j => map (fun r => nth j r 0%Q) m) (seq 0 (ncols m)) 0%nat).
  rewrite seq_nth by exact Hj. cbn [Nat.add].
  destruct (Nat.lt_ge_cases i (length m)) as [Hi|Hi].
  - rewrite (nth_indep _ 0%Q (nth j [] 0%Q)) by (rewrite length_map; exact Hi).
    apply (map_nth (fun r => nth j r 0%Q)).
  - rewrite (nth_overflow (map _ m)) by (rewrite length_map; exact Hi).
    rewrite (nth_overflow m) by exact Hi.
    destruct j; reflexivity.
Qed.

(** What line 88 counts: one if the flat argmax is below the batch size,
    zero otherwise. *)
Lemma filter_eqb_seq_above (k a n : nat) :
  (k < a)%nat -> filter (Nat.eqb k) (seq a n) = [].
Proof.
  revert a. induction n as [|n IH]; intros a Hk; cbn; [reflexivity|].
  destruct (Nat.eqb_spec k a); [lia|]. apply IH. lia.
Qed.

Lemma eq_sum_arange (k n : nat) :
  eq_sum k (arange n) = if (k <? n)%nat then 1 else 0.
Proof.
  unfold eq_sum, arange.
  assert (H : forall a, length (filter (Nat.eqb k) (seq a n))
                        = if ((a <=? k) && (k <? a + n))%nat then 1%nat else 0%nat).
  { induction n as [|n IH]; intros a; cbn [seq filter].
    - destruct (Nat.leb_spec a k), (Nat.ltb_spec k (a + 0)); cbn; try reflexivity; lia.
    - destruct (Nat.eqb_spec k a) as [->|Hne].
      + rewrite filter_eqb_seq_above by lia. cbn [length].
        destruct (Nat.leb_spec a a), (Nat.ltb_spec a (a + S n)); cbn; try reflexivity; lia.
      + rewrite IH.
        destruct (Nat.leb_spec (S a) k), (Nat.ltb_spec k (S a + n)),
          (Nat.leb_spec a k), (Nat.ltb_spec k (a + S n)); cbn; try reflexivity; lia. }
  rewrite H. cbn [Nat.add Nat.leb andb].
  destruct (k <? n)%nat; reflexivity.
Qed.

Lemma acc_increment_at_most_one (logits : matrix) (n : Z) :
  acc_increment logits = Returns n -> 0 <= n <= 1.
Proof.
  unfold acc_increment. destruct (argmax logits) as [k|e]; cbn; [|discriminate].
  intros [= <-]. rewrite eq_sum_arange. destruct (k <? length logits)%nat; lia.
Qed.

(** C1 (evaluation of the source).  On the logits of two correctly matched
    pairs, row 0 peaks at column 0 and row 1 at column 1, so two rows
    match; line 88 takes the argmax of the whole matrix (flat index 0),
    compares that single index with the labels [0; 1] and adds 1. *)
Theorem acc_increment_is_flat_argmax :
  let logits := logits_per_image 1 [[1; 0]; [0; 1]]%Q [[1; 0]; [0.6; 0.8]]%Q in
  argmax logits = Returns 0%nat
  /\ acc_increment logits = Returns 1
  /\ rowwise_matches logits = 2.
Proof. cbv zeta. repeat split; vm_compute; reflexivity. Qed.

(** The clamp of lines 110 and 112 lands in [[0, 4.6052]]. *)
Lemma clamp_range (x : Q) :
  (0 <= clamp x 0 logit_scale_max <= logit_scale_max)%Q.
Proof.
  unfold clamp. split.
  - apply Q.min_glb; [apply Q.le_max_r | discriminate].
  - apply Q.le_min_r.
Qed.

End LossEngineFacts.

(** ** Binary64: row normalisation, clamp and warm-up *)

Module Float64Facts.

Import Float64.

Lemma sum_squares_zero_row (n : nat) :
  fold_left (fun acc x => acc + x * x)%float (repeat 0%float n) 0%float = 0%float.
Proof.
  induction n as [|n IH]; [reflexivity|].
  cbn [repeat fold_left].
  change (0 + 0 * 0)%float with 0%float. exact IH.
Qed.

Lemma norm_zero_row (n : nat) : norm (repeat 0%float n) = 0%float.
Proof. unfold norm. rewrite sum_squares_zero_row. reflexivity. Qed.

Lemma map_div_zero_row (n : nat) :
  map (fun x => x / 0)%float (repeat 0%float n) = repeat nan n.
Proof.
  induction n as [|n IH]; [reflexivity|].
  cbn [repeat map]. rewrite IH. reflexivity.
Qed.

(** C5 (as stated, refuted).  The image features [[0; 0]; [0; 2]] have a
    row of norm zero; lines 76-77 return, with NaN in that row, and raise
    no [InvalidEmbedding]. *)
Lemma zero_norm_row_returns_nan :
  norm [0; 0]%float = 0%float
  /\ normalization_step [[0; 0]; [0; 2]]%float [[1; 0]; [0; 1]]%float
     = Returns ([[nan; nan]; [0; 1]]%float, [[1; 0]; [0; 1]]%float)
  /\ normalization_step [[0; 0]; [0; 2]]%float [[1; 0]; [0; 1]]%float
     <> Raises InvalidEmbedding.
Proof.
  split; [|split]; [vm_compute; reflexivity | vm_compute; reflexivity | discriminate].
Qed.

(** C5 (amended).  The normalisation step raises nothing, whatever the
    embeddings are; a row of zeros has norm zero and comes back as a row
    of NaN (0 / 0), the other rows being normalised as usual. *)
Theorem normalization_never_raises (image_features text_features : fmatrix) :
  normalization_step image_features text_features
  = Returns (normalize image_features, normalize text_features)
  /\ (forall (n : nat) (before after : fmatrix),
        norm (repeat 0%float n) = 0%float
        /\ normalize (before ++ repeat 0%float n :: after)
           = normalize before ++ repeat nan n :: normalize after)
  /\ (forall (n : nat) (before after : fmatrix),
        has_nan (normalize (before ++ repeat 0%float (S n) :: after)) = true).
Proof.
  split; [reflexivity|].
  assert (Hrow : forall n before after,
             normalize (before ++ repeat 0%float n :: after)
             = normalize before ++ repeat nan n :: normalize after).
  { intros n before after. unfold normalize. rewrite map_app. cbn [map].
    rewrite norm_zero_row, map_div_zero_row. reflexivity. }
  split.
  - intros n before after. split; [apply norm_zero_row | apply Hrow].
  - intros n before after. rewrite Hrow. unfold has_nan.
    rewrite existsb_app. cbn. apply orb_true_r.
Qed.

(** *** Comparisons and the clamp of lines 109-112 *)







(** *** The warm-up of line 39 in binary64

    [float(t)] is [t] itself, normalised to a mantissa of 53 bits; the
    product with the double [0.20] is rounded to 53 bits, and [int]
    truncates it.  The lemmas follow the rounding of [SpecFloat]. *)

Lemma digits2_bounds (p : positive) :
  2 ^ (Zpos (digits2_pos p) - 1) <= Zpos p < 2 ^ Zpos (digits2_pos p).
Proof.
  change (digits2_pos p) with (Pos.size p).
  pose proof (Pos.size_gt p) as Hgt. pose proof (Pos.size_le p) as Hle.
  apply Pos2Z.pos_lt_pos in Hgt. apply Pos2Z.pos_le_pos in Hle.
  rewrite Pos2Z.inj_pow in Hgt, Hle.
  set (d := Zpos (Pos.size p)) in *.
  assert (Hd : 2 ^ d = 2 * 2 ^ (d - 1)).
  { rewrite <- Z.pow_succ_r by (unfold d; lia). f_equal. lia. }
  change (Zpos p~0) with (2 * Zpos p) in Hle. lia.
Qed.

Lemma digits2_unique (p : positive) (k : Z) :
  2 ^ (k - 1) <= Zpos p < 2 ^ k -> Zpos (digits2_pos p) = k.
Proof.
  intros [Hlo Hhi]. pose proof (digits2_bounds p) as [Dlo Dhi].
  set (d := Zpos (digits2_pos p)) in *.
  assert (0 < k).
  { destruct (Z.ltb_spec 0 k) as [|Hk]; [assumption|].
    destruct (Z.eq_dec k 0) as [->|Hn]; [cbn in Hhi; lia|].
    rewrite Z.pow_neg_r in Hhi by lia. lia. }
  destruct (Z.lt_trichotomy d k) as [Hlt|[Heq|Hgt]]; [|exact Heq|].
  - assert (2 ^ d <= 2 ^ (k - 1)) by (apply Z.pow_le_mono_r; lia). lia.
  - assert (2 ^ k <= 2 ^ (d - 1)) by (apply Z.pow_le_mono_r; lia). lia.
Qed.

Lemma iter_xO_spec (p q : positive) : Zpos (Pos.iter xO p q) = Zpos p * 2 ^ Zpos q.
Proof.
  pose proof (Zpower.shift_pos_correct q p) as H. unfold Zpower.shift_pos in H.
  rewrite H. change (Z.pow_pos 2 q) with (2 ^ Zpos q). lia.
Qed.

Lemma shr_1_m (R : shr_record) :
  0 <= shr_m R -> shr_m (shr_1 R) = shr_m R / 2 /\ 0 <= shr_m (shr_1 R).
Proof.
  destruct R as [m r s]. cbn [shr_m]. intros Hm.
  destruct m as [|[p|p|]|p]; cbn [shr_1 shr_m]; [| | | |lia].
  - split; [reflexivity | lia].
  - split; [|lia]. apply Z.div_unique with 1; lia.
  - split; [|lia]. apply Z.div_unique with 0; lia.
  - split; [reflexivity | lia].
Qed.

Lemma pow2_double (n : positive) : 2 ^ Zpos n * 2 ^ Zpos n = 2 ^ Zpos n~0.
Proof. rewrite <- Z.pow_add_r by lia. f_equal; lia. Qed.

Lemma pow2_double_succ (n : positive) : 2 * (2 ^ Zpos n * 2 ^ Zpos n) = 2 ^ Zpos n~1.
Proof.
  rewrite pow2_double. rewrite <- Z.pow_succ_r by lia. f_equal; lia.
Qed.

Lemma iter_shr_1_m (n : positive) :
  forall R, 0 <= shr_m R ->
    shr_m (SpecFloat.iter_pos shr_1 n R) = shr_m R / 2 ^ Zpos n
    /\ 0 <= shr_m (SpecFloat.iter_pos shr_1 n R).
Proof.
  induction n as [n IH|n IH|]; intros R HR; cbn [SpecFloat.iter_pos].
  - destruct (shr_1_m R HR) as [E1 P1].
    destruct (IH _ P1) as [E2 P2]. destruct (IH _ P2) as [E3 P3].
    split; [|exact P3]. rewrite E3, E2, E1.
    assert (0 < 2 ^ Zpos n) by (apply Z.pow_pos_nonneg; lia).
    rewrite !Z.div_div by lia.
    rewrite pow2_double_succ. reflexivity.
  - destruct (IH _ HR) as [E2 P2]. destruct (IH _ P2) as [E3 P3].
    split; [|exact P3]. rewrite E3, E2.
    assert (0 < 2 ^ Zpos n) by (apply Z.pow_pos_nonneg; lia).
    rewrite !Z.div_div by lia.
    rewrite pow2_double. reflexivity.
  - destruct (shr_1_m R HR) as [E1 P1]. split; [|exact P1]. rewrite E1. reflexivity.
Qed.

Lemma fexp_normal (e : Z) : -1021 <= e -> fexp prec emax e = e - 53.
Proof. intros He. unfold fexp, SpecFloat.emin, prec, emax. lia. Qed.

Lemma round_exact (m : positive) (e : Z) :
  Zpos (digits2_pos m) = 53 -> -1021 <= 53 + e -> e <= 971 ->
  binary_round_aux prec emax false (Zpos m) e loc_Exact = S754_finite false m e.
Proof.
  intros Hd He1 He2. unfold binary_round_aux, shr_fexp. cbn [Zdigits2].
  rewrite Hd. rewrite fexp_normal by lia.
  replace (53 + e - 53 - e) with 0 by lia.
  cbn [shr shr_record_of_loc loc_of_shr_record round_nearest_even shr_m Zdigits2].
  rewrite Hd. rewrite fexp_normal by lia.
  replace (53 + e - 53 - e) with 0 by lia.
  cbn [shr shr_record_of_loc shr_m].
  destruct (Z.leb_spec e (emax - prec)) as [_|H]; [reflexivity|].
  unfold emax, prec in H. lia.
Qed.

Lemma normalize_spec (p : positive) :
  Zpos p < 2 ^ 52 ->
  exists mz ez,
    binary_normalize prec emax (Zpos p) 0 false = S754_finite false mz ez
    /\ Zpos mz = Zpos p * 2 ^ (- ez)
    /\ 2 ^ 52 <= Zpos mz < 2 ^ 53
    /\ -52 <= ez <= -1.
Proof.
  intros Hp. pose proof (digits2_bounds p) as [Dlo Dhi].
  unfold binary_normalize, binary_round.
  set (d := Zpos (digits2_pos p)) in *.
  assert (Hd : 1 <= d <= 52).
  { split; [unfold d; lia|]. destruct (Z.le_gt_cases d 52); [assumption|].
    assert (2 ^ 52 <= 2 ^ (d - 1)) by (apply Z.pow_le_mono_r; lia). lia. }
  rewrite fexp_normal by lia.
  unfold shl_align.
  destruct (d + 0 - 53 - 0) as [|q|q] eqn:Hq; try lia.
  set (mz := Pos.iter xO p q).
  assert (Hmz : Zpos mz = Zpos p * 2 ^ Zpos q) by apply iter_xO_spec.
  assert (Hq' : Zpos q = 53 - d) by lia.
  assert (HW1 : 2 ^ (d - 1) * 2 ^ Zpos q = 2 ^ 52).
  { rewrite <- Z.pow_add_r by lia. f_equal; lia. }
  assert (HW2 : 2 ^ d * 2 ^ Zpos q = 2 ^ 53).
  { rewrite <- Z.pow_add_r by lia. f_equal; lia. }
  assert (HW : 0 < 2 ^ Zpos q) by (apply Z.pow_pos_nonneg; lia).
  assert (Hb : 2 ^ 52 <= Zpos mz < 2 ^ 53).
  { rewrite Hmz, <- HW1, <- HW2. split.
    - apply Z.mul_le_mono_nonneg_r; lia.
    - apply Z.mul_lt_mono_pos_r; lia. }
  exists mz, (d + 0 - 53). split; [|split; [|split]].
  - apply round_exact; [|lia|lia]. apply digits2_unique. exact Hb.
  - rewrite Hmz. do 2 f_equal. lia.
  - exact Hb.
  - lia.
Qed.

Lemma round_nearest_even_bounds (m : Z) (l : location) :
  m <= round_nearest_even m l <= m + 1.
Proof.
  destruct l as [|[| |]]; cbn [round_nearest_even]; try lia.
  destruct (Z.even m); lia.
Qed.

Lemma mul_fifth_spec (mz : positive) (ez : Z) :
  2 ^ 52 <= Zpos mz < 2 ^ 53 -> -52 <= ez <= -1 ->
  exists (mf : positive) (ef n mr : Z),
    SFmul prec emax (S754_finite false fifth_mantissa (-55)) (S754_finite false mz ez)
    = S754_finite false mf ef
    /\ (n = 52 \/ n = 53)
    /\ mr * 2 ^ n <= Zpos (fifth_mantissa * mz) + 2 ^ n
    /\ Zpos (fifth_mantissa * mz) < (mr + 1) * 2 ^ n
    /\ ef < 0
    /\ Zpos mf / 2 ^ (- ef) = mr / 2 ^ (55 - n - ez).
Proof.
  intros Hmz Hez. cbn [SFmul xorb].
  set (P := (fifth_mantissa * mz)%positive).
  assert (HP : 2 ^ 104 <= Zpos P < 2 ^ 106).
  { unfold P. rewrite Pos2Z.inj_mul.
    assert (2 ^ 52 <= Zpos fifth_mantissa < 2 ^ 53) by (vm_compute; split; [discriminate | reflexivity]).
    change (2 ^ 104) with (2 ^ 52 * 2 ^ 52). change (2 ^ 106) with (2 ^ 53 * 2 ^ 53).
    split.
    - apply Z.mul_le_mono_nonneg; lia.
    - apply Z.mul_lt_mono_nonneg; lia. }
  pose proof (digits2_bounds P) as [Dlo Dhi].
  set (dP := Zpos (digits2_pos P)) in *.
  assert (HdP : dP = 105 \/ dP = 106).
  { assert (104 < dP).
    { destruct (Z.lt_ge_cases 104 dP); [assumption|].
      assert (2 ^ dP <= 2 ^ 104) by (apply Z.pow_le_mono_r; lia). lia. }
    assert (dP <= 106).
    { destruct (Z.le_gt_cases dP 106); [assumption|].
      assert (2 ^ 106 <= 2 ^ (dP - 1)) by (apply Z.pow_le_mono_r; lia). lia. }
    lia. }
  unfold binary_round_aux. unfold shr_fexp at 1. cbn [Zdigits2]. fold dP.
  rewrite fexp_normal by lia.
  destruct (dP + (-55 + ez) - 53 - (-55 + ez)) as [|n|n] eqn:Hn; try lia.
  cbn [shr shr_record_of_loc].
  destruct (iter_shr_1_m n {| shr_m := Zpos P; shr_r := false; shr_s := false |}
              ltac:(cbn; lia)) as [Em Pm].
  cbn [shr_m] in Em.
  set (R1 := SpecFloat.iter_pos shr_1 n _) in *.
  pose proof (round_nearest_even_bounds (shr_m R1) (loc_of_shr_record R1)) as Hr.
  set (mr := round_nearest_even (shr_m R1) (loc_of_shr_record R1)) in *.
  assert (HN : 0 < 2 ^ Zpos n) by (apply Z.pow_pos_nonneg; lia).
  assert (Hn' : Zpos n = dP - 53) by lia.
  assert (Hpow1 : 2 ^ 52 * 2 ^ Zpos n = 2 ^ (dP - 1)).
  { rewrite <- Z.pow_add_r by lia. f_equal; lia. }
  assert (Hpow2 : 2 ^ 53 * 2 ^ Zpos n = 2 ^ dP).
  { rewrite <- Z.pow_add_r by lia. f_equal; lia. }
  assert (Hm' : 2 ^ 52 <= shr_m R1 < 2 ^ 53).
  { rewrite Em. split.
    - apply Z.div_le_lower_bound; lia.
    - apply Z.div_lt_upper_bound; lia. }
  pose proof (Z.mul_div_le (Zpos P) (2 ^ Zpos n) HN) as Hfl1.
  pose proof (Z.mul_succ_div_gt (Zpos P) (2 ^ Zpos n) HN) as Hfl2.
  rewrite <- Em in Hfl1, Hfl2.
  assert (Hmr1 : mr * 2 ^ Zpos n <= Zpos P + 2 ^ Zpos n) by nia.
  assert (Hmr2 : Zpos P < (mr + 1) * 2 ^ Zpos n) by nia.
  destruct mr as [|mrp|mrp] eqn:Hmrp; try lia.
  destruct (Z.lt_ge_cases (Zpos mrp) (2 ^ 53)) as [Hlt|Hge].
  - (* the rounded mantissa fits *)
    unfold shr_fexp. cbn [Zdigits2].
    rewrite (digits2_unique mrp 53) by (change (2 ^ (53 - 1)) with (2 ^ 52); lia).
    rewrite fexp_normal by lia.
    replace (53 + (-55 + ez + Zpos n) - 53 - (-55 + ez + Zpos n)) with 0 by lia.
    cbn [shr shr_record_of_loc shr_m].
    destruct (Z.leb_spec (-55 + ez + Zpos n) (emax - prec)) as [_|H];
      [|unfold emax, prec in H; lia].
    exists mrp, (-55 + ez + Zpos n), (Zpos n), (Zpos mrp).
    split; [reflexivity|]. split; [lia|]. split; [exact Hmr1|]. split; [exact Hmr2|].
    split; [lia|]. do 2 f_equal. lia.
  - (* rounding up reached 2^53 *)
    assert (Hmr : mrp = 9007199254740992%positive).
    { assert (Zpos mrp = 2 ^ 53) by lia. apply Pos2Z.inj. assumption. }
    subst mrp.
    unfold shr_fexp. cbn [Zdigits2].
    change (Zpos (digits2_pos 9007199254740992)) with 54.
    rewrite fexp_normal by lia.
    replace (54 + (-55 + ez + Zpos n) - 53 - (-55 + ez + Zpos n)) with 1 by lia.
    cbn [shr shr_record_of_loc shr_m SpecFloat.iter_pos shr_1].
    destruct (Z.leb_spec (-55 + ez + Zpos n + 1) (emax - prec)) as [_|H];
      [|unfold emax, prec in H; lia].
    exists 4503599627370496%positive, (-55 + ez + Zpos n + 1), (Zpos n), (2 ^ 53).
    split; [reflexivity|]. split; [lia|]. split; [exact Hmr1|]. split; [exact Hmr2|].
    split; [lia|].
    set (g := 55 - Zpos n - ez).
    replace (- (-55 + ez + Zpos n + 1)) with (g - 1) by (unfold g; lia).
    assert (Hg : 2 ^ g = 2 * 2 ^ (g - 1)).
    { rewrite <- Z.pow_succ_r by (unfold g; lia). f_equal; lia. }
    rewrite Hg. change (2 ^ 53) with (2 * 4503599627370496).
    rewrite Z.div_mul_cancel_l; [reflexivity | | lia].
    assert (0 < 2 ^ (g - 1)) by (apply Z.pow_pos_nonneg; unfold g; lia). lia.
Qed.

Lemma fifth_of_rounded (t W N G mz mr : Z) :
  0 < t -> 2 <= W -> 0 < N <= 2 ^ 53 -> 0 < G ->
  mz = t * W -> mz < 2 ^ 53 ->
  G * N = 2 ^ 55 * W ->
  mr * N <= Zpos fifth_mantissa * mz + N ->
  Zpos fifth_mantissa * mz < (mr + 1) * N ->
  mr / G = t / 5.
Proof.
  intros Ht HW HN HG Hmz Hmz' HGN Hhi Hlo.
  assert (HM : 5 * Zpos fifth_mantissa = 2 ^ 55 + 2) by reflexivity.
  set (C := 2 ^ 55) in *. assert (HC : C = 36028797018963968) by reflexivity.
  change (2 ^ 53) with 9007199254740992 in *.
  pose proof (Z.div_mod t 5 ltac:(lia)) as Hdm.
  pose proof (Z.mod_pos_bound t 5 ltac:(lia)) as Hr.
  set (k := t / 5) in *.
  assert (Hk : 0 <= k) by (apply Z.div_pos; lia).
  symmetry. apply Z.div_unique_pos with (mr - k * G). 2: lia.
  assert (HY : 0 < C * W) by lia.
  split.
  - (* k * G <= mr *)
    destruct (Z.le_gt_cases (k * G) mr) as [|Hc]; [lia|exfalso].
    assert (H1 : (mr + 1) * N <= k * G * N) by (apply Z.mul_le_mono_nonneg_r; lia).
    assert (H2 : k * G * N = k * (C * W)) by (rewrite <- HGN; ring).
    assert (H3 : 5 * k * (C * W) <= t * (C * W)) by (apply Z.mul_le_mono_nonneg_r; lia).
    assert (H4 : t * (C * W) = C * mz) by (rewrite Hmz; ring).
    nia.
  - (* mr < (k + 1) * G *)
    destruct (Z.lt_ge_cases mr ((k + 1) * G)) as [|Hc]; [lia|exfalso].
    assert (H1 : (k + 1) * G * N <= mr * N) by (apply Z.mul_le_mono_nonneg_r; lia).
    assert (H2 : (k + 1) * G * N = (k + 1) * (C * W)) by (rewrite <- HGN; ring).
    assert (H3 : (t + 1) * (C * W) <= 5 * (k + 1) * (C * W))
      by (apply Z.mul_le_mono_nonneg_r; lia).
    assert (H4 : (t + 1) * (C * W) = C * mz + C * W) by (rewrite Hmz; ring).
    assert (H5 : 2 * C <= C * W) by nia.
    nia.
Qed.

(** In binary64 the warm-up of line 39 is the fifth of [t_total], rounded
    down, for every [t_total] from 0 to below [2^52]. *)
Lemma float_warmup_is_a_fifth (t : Z) :
  0 <= t < 2 ^ 52 -> warmup_steps t = Some (t / 5).
Proof.
  intros [H0 Ht]. destruct t as [|p|p]; [reflexivity| |lia].
  unfold warmup_steps, to_int, of_int. rewrite mul_spec.
  destruct (normalize_spec p Ht) as (mz & ez & -> & Hmz & Hb & Hez).
  rewrite Prim2SF_SF2Prim.
  2:{ cbn [valid_binary]. unfold SpecFloat.bounded, SpecFloat.canonical_mantissa.
      rewrite (digits2_unique mz 53) by (change (2 ^ (53 - 1)) with (2 ^ 52); exact Hb).
      rewrite fexp_normal by lia.
      apply andb_true_intro. split; [apply Z.eqb_eq; lia | apply Z.leb_le].
      unfold emax, prec. lia. }
  change (Prim2SF 0.20) with (S754_finite false fifth_mantissa (-55)).
  destruct (mul_fifth_spec mz ez Hb Hez)
    as (mf & ef & n & mr & Hmul & Hn & Hhi & Hlo & Hef & Hv).
  unfold SF64mul. rewrite Hmul.
  destruct (Z.leb_spec 0 ef) as [|_]; [lia|].
  f_equal. rewrite Hv.
  rewrite Pos2Z.inj_mul in Hhi, Hlo.
  assert (HW : 2 <= 2 ^ (- ez)).
  { change 2 with (2 ^ 1) at 1. apply Z.pow_le_mono_r; lia. }
  assert (HN : 0 < 2 ^ n <= 2 ^ 53).
  { split; [apply Z.pow_pos_nonneg; lia|]. apply Z.pow_le_mono_r; lia. }
  assert (HG : 0 < 2 ^ (55 - n - ez)) by (apply Z.pow_pos_nonneg; lia).
  assert (HGN : 2 ^ (55 - n - ez) * 2 ^ n = 2 ^ 55 * 2 ^ (- ez)).
  { rewrite <- !Z.pow_add_r by lia. f_equal; lia. }
  apply (fifth_of_rounded (Zpos p) (2 ^ (- ez)) (2 ^ n) (2 ^ (55 - n - ez)) (Zpos mz) mr);
    try assumption; lia.
Qed.

End Float64Facts.

(** ** The two logits products, whatever the arithmetic *)

Module LogitsFacts.

Import Logits.

Section Arithmetic.

Context {F : Type}.
Variable zero : F.
Variable add mul : F -> F -> F.




End Arithmetic.

(** The exact logits of [LossEngine] are the instance at the rationals. *)
Lemma dot_over_Q (u v : list Q) : dot 0%Q Qplus Qmult u v = LossEngine.dot u v.
Proof. reflexivity. Qed.

Lemma logits_over_Q (s : Q) (image_features text_features : LossEngine.matrix) :
  logits_per_image 0%Q Qplus Qmult s image_features text_features
  = LossEngine.logits_per_image s image_features text_features
  /\ logits_per_text 0%Q Qplus Qmult s image_features text_features
     = LossEngine.logits_per_text s image_features text_features.
Proof.
  split; reflexivity.
Qed.



End LogitsFacts.

(** ** 4.6052 and ln 100 *)

Module ClampBound.

Local Open Scope R_scope.





End ClampBound.

(** ** The orchestrator *)

Lemma optimizer_steps_app (l1 l2 : list event) :
  optimizer_steps (l1 ++ l2) = optimizer_steps l1 + optimizer_steps l2.
Proof. unfold optimizer_steps. rewrite filter_app, length_app. lia. Qed.

Lemma checkpoints_app (l1 l2 : list event) :
  checkpoints (l1 ++ l2) = checkpoints l1 ++ checkpoints l2.
Proof.
  induction l1 as [|e l1 IH]; [reflexivity|].
  destruct e; cbn; rewrite IH; reflexivity.
Qed.

Lemma reports_no_optimizer_step (l : list event) :
  forallb is_report l = true -> optimizer_steps l = 0.
Proof.
  unfold optimizer_steps. induction l as [|e l IH]; [reflexivity|].
  cbn [forallb]. intros [He Hl]%andb_true_iff.
  destruct e; try discriminate; cbn; apply IH; exact Hl.
Qed.

Lemma reports_no_checkpoint (l : list event) :
  forallb is_report l = true -> checkpoints l = [].
Proof.
  induction l as [|e l IH]; [reflexivity|].
  cbn [forallb]. intros [He Hl]%andb_true_iff.
  destruct e; try discriminate; cbn; apply IH; exact Hl.
Qed.

(** Line 122 never divides by zero, whatever [save_steps] is. *)
Lemma save_due_value (cfg : config) (gs t : Z) :
  save_due cfg gs t = Returns (should_save cfg gs t).
Proof.
  unfold save_due, should_save, Py.mod_.
  destruct (Z.gtb_spec (save_steps cfg) 0) as [Hpos|Hle].
  - destruct (Z.eqb_spec (save_steps cfg) 0) as [H0|_]; [lia|].
    destruct (Z.ltb_spec 0 (save_steps cfg)); [|lia]. cbn.
    destruct (gs mod save_steps cfg =? 0); reflexivity.
  - destruct (Z.ltb_spec 0 (save_steps cfg)); [lia|]. reflexivity.
Qed.

(** Stepping [s] by one crosses a multiple of [a] exactly when [a] divides
    [s + 1]. *)
Lemma div_succ (a s : Z) :
  0 < a -> (s + 1) / a = s / a + (if (s + 1) mod a =? 0 then 1 else 0).
Proof.
  intros Ha.
  pose proof (Z.div_mod s a ltac:(lia)) as Hs.
  pose proof (Z.mod_pos_bound s a Ha) as Hb.
  destruct (Z.eq_dec (s mod a + 1) a) as [Heq|Hne].
  - assert (Hd : (s + 1) / a = s / a + 1).
    { symmetry. apply (Z.div_unique (s + 1) a (s / a + 1) 0); lia. }
    assert (Hm : (s + 1) mod a = 0).
    { symmetry. apply (Z.mod_unique (s + 1) a (s / a + 1) 0); lia. }
    rewrite Hd, Hm. reflexivity.
  - assert (Hd : (s + 1) / a = s / a).
    { symmetry. apply (Z.div_unique (s + 1) a (s / a) (s mod a + 1)); lia. }
    assert (Hm : (s + 1) mod a = s mod a + 1).
    { symmetry. apply (Z.mod_unique (s + 1) a (s / a) (s mod a + 1)); lia. }
    rewrite Hd, Hm. destruct (Z.eqb_spec (s mod a + 1) 0); lia.
Qed.

Section OrchestratorFacts.

Variables Batch Model Optim : Type.
Variable features : Model -> bool -> Batch -> matrix * matrix.
Variable texp : Q -> Q.
Variable cross_entropy : matrix -> list nat -> Q.
Variable backward : Model -> Q -> Batch -> Model.
Variable optimizer_step : Optim -> Model -> Q -> Optim * Model * Q.
Variable zero_grad : Model -> Model.

Local Notation state := (state Model Optim).
Local Notation loss_engine' := (loss_engine features texp cross_entropy).
Local Notation optimizer_boundary' := (optimizer_boundary optimizer_step zero_grad).
Local Notation train_batch' :=
  (train_batch features texp cross_entropy backward optimizer_step zero_grad).
Local Notation train_batches' :=
  (train_batches features texp cross_entropy backward optimizer_step zero_grad).
Local Notation valid_batch' := (valid_batch features texp cross_entropy).
Local Notation valid_batches' := (valid_batches features texp cross_entropy).
Local Notation validate' := (validate features texp cross_entropy).
Local Notation run_epoch' :=
  (run_epoch features texp cross_entropy backward optimizer_step zero_grad).
Local Notation run_epochs' :=
  (run_epochs features texp cross_entropy backward optimizer_step zero_grad).
Local Notation train_loop' :=
  (train_loop features texp cross_entropy backward optimizer_step zero_grad).
Local Notation train' :=
  (train features texp cross_entropy backward optimizer_step zero_grad).

(** *** The loss engine inside the loops *)

Lemma exp_logit_scale_inv (cfg : config) (c : core Model Optim) (s : Q) :
  exp_logit_scale texp cfg c = Returns s -> 1 <= n_gpu cfg.
Proof.
  unfold exp_logit_scale.
  destruct (Z.eqb_spec (n_gpu cfg) 1); [lia|].
  destruct (Z.gtb_spec (n_gpu cfg) 1); [lia|discriminate].
Qed.

Lemma exp_logit_scale_ok (cfg : config) (c : core Model Optim) :
  1 <= n_gpu cfg -> exp_logit_scale texp cfg c = Returns (texp (logit_scale c)).
Proof.
  intros H. unfold exp_logit_scale.
  destruct (Z.eqb_spec (n_gpu cfg) 1); [reflexivity|].
  destruct (Z.gtb_spec (n_gpu cfg) 1); [reflexivity|lia].
Qed.

Lemma acc_increment_ok (s : Q) (img txt : matrix) :
  img <> [] -> txt <> [] ->
  exists n, acc_increment (logits_per_image s img txt) = Returns n.
Proof.
  intros Hi Ht. destruct img as [|i0 img]; [congruence|].
  destruct txt as [|t0 txt]; [congruence|].
  unfold acc_increment, argmax. cbn. eexists. reflexivity.
Qed.

Lemma loss_engine_inv (cfg : config) (c : core Model Optim) mode b lc :
  loss_engine' cfg c mode b = Returns lc -> 1 <= n_gpu cfg.
Proof.
  unfold loss_engine. destruct (features (model c) mode b) as [img txt].
  intros H. inv_bind H. eapply exp_logit_scale_inv; eassumption.
Qed.

Lemma loss_engine_ok (cfg : config) (c : core Model Optim) mode b :
  1 <= n_gpu cfg -> nonempty_features features ->
  exists lc, loss_engine' cfg c mode b = Returns lc.
Proof.
  intros Hg Hne. unfold loss_engine.
  pose proof (Hne (model c) mode b) as [Hi Ht].
  destruct (features (model c) mode b) as [img txt]; cbn [fst snd] in *.
  rewrite exp_logit_scale_ok by exact Hg. cbn [Py.bind].
  destruct (acc_increment_ok (texp (logit_scale c)) img txt Hi Ht) as [n Hn].
  rewrite Hn. cbn [Py.bind]. eexists. reflexivity.
Qed.

(** *** One optimizer-step boundary (lines 105-124) *)

Lemma optimizer_boundary_inv (cfg : config) (t epoch : Z) (st st' : state) :
  optimizer_boundary' cfg t epoch st = Returns st' ->
  let gs := global_step (tr st) + 1 in
  global_step (tr st') = gs
  /\ global_loss (tr st') = global_loss (tr st)
  /\ logit_scale (tr st')
     = clamp_logit_scale cfg
         (snd (optimizer_step (optimizer (tr st)) (model (tr st)) (logit_scale (tr st))))
  /\ ep st' = ep st
  /\ optimizer_steps (trace st') = optimizer_steps (trace st) + 1
  /\ checkpoints (trace st')
     = checkpoints (trace st) ++ (if should_save cfg gs t then [(epoch, gs)] else []).
Proof.
  unfold optimizer_boundary.
  destruct (optimizer_step _ _ _) as [[o m] ls]. cbn [snd].
  intros H. inv_bind H. rewrite save_due_value in H. cbn [Py.bind] in H.
  injection H as <-. cbn [tr ep trace global_step global_loss logit_scale].
  repeat split.
  - destruct (should_save cfg _ t), (a =? 0);
      rewrite ?optimizer_steps_app; cbn; unfold optimizer_steps; cbn; lia.
  - destruct (should_save cfg _ t), (a =? 0);
      rewrite ?checkpoints_app; cbn; rewrite ?app_nil_r; reflexivity.
Qed.

Lemma optimizer_boundary_ok (cfg : config) (t epoch : Z) (st : state) :
  logging_steps cfg <> 0 ->
  exists st', optimizer_boundary' cfg t epoch st = Returns st'.
Proof.
  intros Hl. unfold optimizer_boundary.
  destruct (optimizer_step _ _ _) as [[o m] ls].
  unfold Py.mod_. destruct (Z.eqb_spec (logging_steps cfg) 0); [contradiction|].
  cbn [Py.bind]. rewrite save_due_value. cbn [Py.bind]. eexists. reflexivity.
Qed.

(** *** One training iteration (lines 67-124) *)

Lemma train_batch_inv (cfg : config) (t epoch : Z) (st st' : state) (step : Z) (b : Batch) :
  train_batch' cfg t epoch st step b = Returns st' ->
  let a := gradient_accumulation_steps cfg in
  let due := (step + 1) mod a =? 0 in
  let gs := global_step (tr st) + 1 in
  1 <= n_gpu cfg /\ a <> 0
  /\ global_step (tr st') = global_step (tr st) + (if due then 1 else 0)
  /\ optimizer_steps (trace st') = optimizer_steps (trace st) + (if due then 1 else 0)
  /\ checkpoints (trace st')
     = checkpoints (trace st)
         ++ (if due && should_save cfg gs t then [(epoch, gs)] else [])
  /\ final_step (ep st') = final_step (ep st)
  /\ (due = true ->
      forall o m ls,
        optimizer_step (optimizer (tr st))
          (backward (model (tr st)) (logit_scale (tr st)) b) (logit_scale (tr st))
        = (o, m, ls) ->
        logit_scale (tr st') = clamp ls 0 logit_scale_max).
Proof.
  unfold train_batch. intros H. inv_bind H.
  pose proof (loss_engine_inv _ _ _ _ _ E) as Hg.
  unfold Py.mod_ in H.
  destruct (Z.eqb_spec (gradient_accumulation_steps cfg) 0) as [H0|Hnz];
    [discriminate H|]. cbn [Py.bind] in H.
  cbv zeta. split; [exact Hg|]. split; [exact Hnz|].
  destruct ((step + 1) mod gradient_accumulation_steps cfg =? 0).
  - apply optimizer_boundary_inv in H. cbv zeta in H.
    cbn [tr ep trace global_step global_loss logit_scale optimizer model final_step] in H.
    destruct H as (Hgs & _ & Hls & Hep & Hos & Hcp).
    rewrite Hgs, Hos, Hcp, Hep. cbn [final_step andb].
    repeat split.
    + destruct (wandb cfg); rewrite ?optimizer_steps_app; cbn; lia.
    + destruct (wandb cfg); rewrite ?checkpoints_app; cbn; rewrite ?app_nil_r; reflexivity.
    + intros _ o m ls Hopt. rewrite Hls, Hopt. cbn [snd].
      unfold clamp_logit_scale.
      destruct (Z.eqb_spec (n_gpu cfg) 1); [reflexivity|].
      destruct (Z.gtb_spec (n_gpu cfg) 1); [reflexivity|lia].
  - injection H as <-. cbn [tr ep trace global_step final_step andb].
    repeat split.
    + lia.
    + destruct (wandb cfg); rewrite ?optimizer_steps_app; cbn; lia.
    + destruct (wandb cfg); rewrite ?checkpoints_app; cbn; rewrite ?app_nil_r; reflexivity.
    + discriminate.
Qed.

Lemma train_batch_ok (cfg : config) (t epoch : Z) (st : state) (step : Z) (b : Batch) :
  1 <= n_gpu cfg -> gradient_accumulation_steps cfg <> 0 ->
  logging_steps cfg <> 0 \/ (step + 1) mod gradient_accumulation_steps cfg <> 0 ->
  nonempty_features features ->
  exists st', train_batch' cfg t epoch st step b = Returns st'.
Proof.
  intros Hg Ha Hl Hne. unfold train_batch.
  destruct (loss_engine_ok cfg (tr st) true b Hg Hne) as [lc Hlc].
  rewrite Hlc. cbn [Py.bind]. unfold Py.mod_.
  destruct (Z.eqb_spec (gradient_accumulation_steps cfg) 0); [contradiction|].
  cbn [Py.bind].
  destruct (Z.eqb_spec ((step + 1) mod gradient_accumulation_steps cfg) 0) as [Hd|Hd].
  - apply optimizer_boundary_ok. destruct Hl as [Hl|Hl]; [exact Hl|contradiction].
  - eexists. reflexivity.
Qed.

(** *** The training loop of one epoch (line 66) *)

Lemma train_batches_inv (cfg : config) (t epoch : Z) (bs : list Batch) :
  0 < gradient_accumulation_steps cfg ->
  forall (step : Z) (st st' : state),
    train_batches' cfg t epoch step bs st = Returns st' ->
    let a := gradient_accumulation_steps cfg in
    let k := (step + Z.of_nat (length bs)) / a - step / a in
    0 <= k
    /\ global_step (tr st') = global_step (tr st) + k
    /\ optimizer_steps (trace st') = optimizer_steps (trace st) + k
    /\ final_step (ep st') = final_step (ep st).
Proof.
  intros Ha. induction bs as [|b bs IH]; intros step st st' H; cbv zeta.
  - cbn in H. injection H as <-. cbn [length Z.of_nat].
    rewrite Z.add_0_r, Z.sub_diag. repeat split; lia.
  - cbn in H. inv_bind H.
    apply train_batch_inv in E. cbv zeta in E.
    destruct E as (_ & _ & Hgs & Hos & _ & Hfs & _).
    apply IH in H. cbv zeta in H. destruct H as (Hk & Hgs' & Hos' & Hfs').
    pose proof (div_succ (gradient_accumulation_steps cfg) step Ha) as Hd.
    replace (step + Z.of_nat (length (b :: bs)))
      with (step + 1 + Z.of_nat (length bs)) by (cbn [length]; lia).
    destruct ((step + 1) mod gradient_accumulation_steps cfg =? 0);
      repeat split; try congruence; lia.
Qed.

(** The loop completes when the logging interval is not 0, or when it
    reaches no boundary at all. *)
Lemma train_batches_ok (cfg : config) (t epoch : Z) (bs : list Batch) :
  1 <= n_gpu cfg -> gradient_accumulation_steps cfg <> 0 ->
  nonempty_features features ->
  forall (step : Z) (st : state),
    logging_steps cfg <> 0
    \/ (0 <= step /\ step + Z.of_nat (length bs) < gradient_accumulation_steps cfg) ->
    exists st', train_batches' cfg t epoch step bs st = Returns st'.
Proof.
  intros Hg Ha Hne. induction bs as [|b bs IH]; intros step st Hl.
  - eexists. reflexivity.
  - cbn [length] in Hl. rewrite Nat2Z.inj_succ in Hl.
    destruct (train_batch_ok cfg t epoch st step b Hg Ha) as [st1 H1];
      [ destruct Hl as [Hl|Hl]; [left; exact Hl|right; rewrite Z.mod_small; lia]
      | exact Hne | ].
    destruct (IH (step + 1) st1) as [st' H'];
      [destruct Hl as [Hl|Hl]; [left; exact Hl|right; lia]|].
    exists st'. cbn. rewrite H1. cbn [Py.bind]. exact H'.
Qed.

(** With [save_steps = 0], the loop saves once, when [global_step] reaches
    [t]. *)
Lemma train_batches_checkpoints (cfg : config) (t epoch : Z) (bs : list Batch) :
  save_steps cfg = 0 -> 0 < gradient_accumulation_steps cfg ->
  forall (step : Z) (st st' : state),
    train_batches' cfg t epoch step bs st = Returns st' ->
    checkpoints (trace st')
    = checkpoints (trace st)
        ++ (if (global_step (tr st) <? t) && (t <=? global_step (tr st'))
            then [(epoch, t)] else []).
Proof.
  intros Hs Ha. induction bs as [|b bs IH]; intros step st st' H.
  - cbn in H. injection H as <-.
    destruct (Z.ltb_spec (global_step (tr st)) t), (Z.leb_spec t (global_step (tr st)));
      cbn; rewrite ?app_nil_r; try reflexivity; lia.
  - cbn in H. inv_bind H.
    pose proof (train_batches_inv cfg t epoch bs Ha _ _ _ H) as Hmono.
    cbv zeta in Hmono. destruct Hmono as (Hk & Hgs' & _).
    apply IH in H. apply train_batch_inv in E. cbv zeta in E.
    destruct E as (_ & _ & Hgs & _ & Hcp & _).
    rewrite H, Hcp. rewrite <- app_assoc. f_equal.
    unfold should_save. rewrite Hs. cbn [Z.ltb Z.compare andb orb].
    destruct ((step + 1) mod gradient_accumulation_steps cfg =? 0); cbn [andb].
    + destruct (Z.eqb_spec (global_step (tr st) + 1) t) as [Heq|Hneq].
      * destruct (Z.ltb_spec (global_step (tr st)) t); [|lia].
        destruct (Z.leb_spec t (global_step (tr st'))); [|lia].
        destruct (Z.ltb_spec (global_step (tr a)) t); [lia|].
        cbn. rewrite Heq. reflexivity.
      * destruct (Z.ltb_spec (global_step (tr st)) t),
          (Z.ltb_spec (global_step (tr a)) t); cbn; try reflexivity; lia.
    + rewrite Hgs, Z.add_0_r. reflexivity.
Qed.

(** *** The validation pass (lines 127-168) *)

Lemma valid_batches_inv (cfg : config) (bs : list Batch) :
  forall (idx : Z) (st st' : state),
    valid_batches' cfg idx bs st = Returns st' ->
    tr st' = tr st /\ trace st' = trace st
    /\ (bs <> [] -> final_step (ep st') <> None)
    /\ (bs = [] -> st' = st).
Proof.
  induction bs as [|b bs IH]; intros idx st st' H.
  - cbn in H. injection H as <-. repeat split; congruence.
  - cbn in H. inv_bind H. unfold valid_batch in E. inv_bind E.
    injection E as <-. apply IH in H. destruct H as (Ht & Htr & Hfs & Hnil).
    cbn [tr trace] in *. repeat split; try assumption; try discriminate.
    intros _. destruct bs as [|b' bs].
    + rewrite (Hnil eq_refl). cbn. discriminate.
    + apply Hfs. discriminate.
Qed.

Lemma valid_batches_ok (cfg : config) (bs : list Batch) :
  1 <= n_gpu cfg -> nonempty_features features ->
  forall (idx : Z) (st : state), exists st', valid_batches' cfg idx bs st = Returns st'.
Proof.
  intros Hg Hne. induction bs as [|b bs IH]; intros idx st.
  - eexists. reflexivity.
  - cbn. unfold valid_batch.
    destruct (loss_engine_ok cfg (tr st) false b Hg Hne) as [lc Hlc].
    rewrite Hlc. cbn [Py.bind]. apply IH.
Qed.

Lemma validate_inv (cfg : config) (vbs : list Batch) (st st' : state) :
  validate' cfg vbs st = Returns st' ->
  tr st' = tr st
  /\ (exists evs, trace st' = trace st ++ evs /\ forallb is_report evs = true)
  /\ final_step (ep st') <> None.
Proof.
  unfold validate. intros H. inv_bind H.
  apply valid_batches_inv in E. destruct E as (Ht & Htr & _).
  cbn [tr trace] in *.
  destruct (final_step (ep a)) as [f|] eqn:Hf; [|discriminate H].
  injection H as <-. cbn [tr trace ep]. rewrite Htr.
  split; [exact Ht|]. split; [|congruence].
  destruct (wandb cfg).
  - eexists. rewrite <- app_assoc. split; reflexivity.
  - eexists. split; reflexivity.
Qed.

Lemma validate_ok (cfg : config) (vbs : list Batch) (st : state) :
  1 <= n_gpu cfg -> nonempty_features features -> vbs <> [] ->
  exists st', validate' cfg vbs st = Returns st'.
Proof.
  intros Hg Hne Hv. unfold validate.
  match goal with |- context [valid_batches' cfg 0 vbs ?s0] =>
    destruct (valid_batches_ok cfg vbs Hg Hne 0 s0) as [st1 H1] end.
  rewrite H1. cbn [Py.bind].
  apply valid_batches_inv in H1. destruct H1 as (_ & _ & Hfs & _).
  destruct (final_step (ep st1)) as [f|]; [|exfalso; apply (Hfs Hv); reflexivity].
  eexists. reflexivity.
Qed.

Lemma validate_observables (cfg : config) (vbs : list Batch) (st st' : state) :
  validate' cfg vbs st = Returns st' ->
  tr st' = tr st
  /\ optimizer_steps (trace st') = optimizer_steps (trace st)
  /\ checkpoints (trace st') = checkpoints (trace st).
Proof.
  intros H. apply validate_inv in H. destruct H as (Ht & (evs & Htr & Hrep) & _).
  rewrite Htr, optimizer_steps_app, checkpoints_app.
  rewrite (reports_no_optimizer_step evs Hrep), (reports_no_checkpoint evs Hrep).
  rewrite app_nil_r. repeat split; [exact Ht | lia].
Qed.

(** *** Epochs (lines 63-168) *)

Lemma run_epoch_inv (cfg : config) (t : Z) (tbs vbs : list Batch) (epoch : Z)
    (st st' : state) :
  0 < gradient_accumulation_steps cfg ->
  run_epoch' cfg t tbs vbs epoch st = Returns st' ->
  let q := Z.of_nat (length tbs) / gradient_accumulation_steps cfg in
  0 <= q
  /\ global_step (tr st') = global_step (tr st) + q
  /\ optimizer_steps (trace st') = optimizer_steps (trace st) + q
  /\ (save_steps cfg = 0 ->
      checkpoints (trace st')
      = checkpoints (trace st)
          ++ (if (global_step (tr st) <? t) && (t <=? global_step (tr st'))
              then [(epoch, t)] else [])).
Proof.
  intros Ha H. unfold run_epoch in H. inv_bind H.
  pose proof (train_batches_inv cfg t epoch tbs Ha _ _ _ E) as Hb.
  cbv zeta in Hb. rewrite Z.add_0_l, Z.div_0_l, Z.sub_0_r in Hb by lia.
  destruct Hb as (Hq & Hgs & Hos & _).
  apply validate_observables in H. destruct H as (Ht & Hos' & Hcp').
  cbn [tr trace global_step] in *. cbv zeta. rewrite Ht, Hos', Hcp'.
  repeat split; try assumption.
  intros Hs. apply (train_batches_checkpoints cfg t epoch tbs Hs Ha) in E.
  cbn [tr trace] in E. exact E.
Qed.

Lemma run_epoch_ok (cfg : config) (t : Z) (tbs vbs : list Batch) (epoch : Z) (st : state) :
  1 <= n_gpu cfg -> gradient_accumulation_steps cfg <> 0 ->
  logging_steps cfg <> 0
  \/ Z.of_nat (length tbs) < gradient_accumulation_steps cfg ->
  nonempty_features features -> vbs <> [] ->
  exists st', run_epoch' cfg t tbs vbs epoch st = Returns st'.
Proof.
  intros Hg Ha Hl Hne Hv. unfold run_epoch.
  match goal with |- context [train_batches' cfg t epoch 0 tbs ?s0] =>
    destruct (train_batches_ok cfg t epoch tbs Hg Ha Hne 0 s0) as [st1 H1];
      [destruct Hl as [Hl|Hl]; [left; exact Hl|right; lia]|]
  end.
  rewrite H1. cbn [Py.bind]. apply validate_ok; assumption.
Qed.

Lemma run_epochs_inv (cfg : config) (t : Z) (tbs vbs : list Batch) :
  0 < gradient_accumulation_steps cfg ->
  forall (n : nat) (epoch : Z) (st st' : state),
    run_epochs' cfg t tbs vbs n epoch st = Returns st' ->
    let q := Z.of_nat (length tbs) / gradient_accumulation_steps cfg in
    global_step (tr st') = global_step (tr st) + Z.of_nat n * q
    /\ optimizer_steps (trace st') = optimizer_steps (trace st) + Z.of_nat n * q.
Proof.
  intros Ha. induction n as [|n IH]; intros epoch st st' H; cbv zeta.
  - cbn in H. injection H as <-. split; lia.
  - cbn in H. inv_bind H.
    apply run_epoch_inv in E; [|exact Ha]. cbv zeta in E.
    destruct E as (_ & Hgs & Hos & _).
    apply IH in H. cbv zeta in H. destruct H as [Hgs' Hos'].
    rewrite Hgs', Hos', Hgs, Hos. split; lia.
Qed.

Lemma run_epochs_ok (cfg : config) (t : Z) (tbs vbs : list Batch) :
  1 <= n_gpu cfg -> gradient_accumulation_steps cfg <> 0 ->
  logging_steps cfg <> 0
  \/ Z.of_nat (length tbs) < gradient_accumulation_steps cfg ->
  nonempty_features features -> vbs <> [] ->
  forall (n : nat) (epoch : Z) (st : state),
    exists st', run_epochs' cfg t tbs vbs n epoch st = Returns st'.
Proof.
  intros Hg Ha Hl Hne Hv. induction n as [|n IH]; intros epoch st.
  - eexists. reflexivity.
  - destruct (run_epoch_ok cfg t tbs vbs epoch st Hg Ha Hl Hne Hv) as [st1 H1].
    cbn. rewrite H1. cbn [Py.bind]. apply IH.
Qed.

(** With [save_steps = 0], epochs that end at [global_step = t] save once,
    in the last of them. *)
Lemma run_epochs_checkpoints (cfg : config) (t : Z) (tbs vbs : list Batch) :
  save_steps cfg = 0 -> 0 < gradient_accumulation_steps cfg ->
  forall (n : nat) (epoch : Z) (st st' : state),
    run_epochs' cfg t tbs vbs n epoch st = Returns st' ->
    let q := Z.of_nat (length tbs) / gradient_accumulation_steps cfg in
    t = global_step (tr st) + Z.of_nat n * q ->
    checkpoints (trace st')
    = checkpoints (trace st)
        ++ (if 0 <? Z.of_nat n * q then [(epoch + Z.of_nat n - 1, t)] else []).
Proof.
  intros Hs Ha. induction n as [|n IH]; intros epoch st st' H; cbv zeta; intros Ht.
  - cbn in H. injection H as <-. cbn. rewrite app_nil_r. reflexivity.
  - cbn in H. inv_bind H.
    apply run_epoch_inv in E; [|exact Ha]. cbv zeta in E.
    destruct E as (Hq & Hgs & _ & Hcp). specialize (Hcp Hs).
    set (q := Z.of_nat (length tbs) / gradient_accumulation_steps cfg) in *.
    rewrite Nat2Z.inj_succ in *. pose proof (Nat2Z.is_nonneg n) as Hn.
    assert (Ht' : t = global_step (tr a) + Z.of_nat n * q) by lia.
    apply IH in H; [|exact Ht'].
    rewrite H, Hcp, <- app_assoc. f_equal.
    destruct (Z.ltb_spec (global_step (tr st)) t),
      (Z.leb_spec t (global_step (tr a))),
      (Z.ltb_spec 0 (Z.of_nat n * q)),
      (Z.ltb_spec 0 (Z.succ (Z.of_nat n) * q));
      cbn [andb app]; try reflexivity; try (exfalso; nia);
      do 2 f_equal; nia.
Qed.

(** *** The whole run *)

Lemma t_total_value (cfg : config) (n : Z) :
  gradient_accumulation_steps cfg <> 0 ->
  t_total cfg n = Returns (n / gradient_accumulation_steps cfg * num_train_epochs cfg).
Proof.
  intros Ha. unfold t_total, Py.floordiv.
  destruct (Z.eqb_spec (gradient_accumulation_steps cfg) 0); [contradiction|reflexivity].
Qed.

Lemma train_loop_inv (cfg : config) (tbs vbs : list Batch) m ls o (st' : state) :
  0 < gradient_accumulation_steps cfg -> 0 <= num_train_epochs cfg ->
  train_loop' cfg tbs vbs m ls o = Returns st' ->
  let t := Z.of_nat (length tbs) / gradient_accumulation_steps cfg
           * num_train_epochs cfg in
  global_step (tr st') = t
  /\ optimizer_steps (trace st') = t
  /\ (save_steps cfg = 0 ->
      checkpoints (trace st')
      = if 0 <? t then [(num_train_epochs cfg - 1, t)] else []).
Proof.
  intros Ha He H. unfold train_loop in H.
  rewrite t_total_value in H by lia. cbn [Py.bind] in H.
  pose proof (run_epochs_inv cfg _ tbs vbs Ha _ _ _ _ H) as Hinv.
  cbv zeta in Hinv. rewrite Z2Nat.id in Hinv by exact He.
  cbn [initial_state tr trace global_step] in Hinv. destruct Hinv as [Hgs Hos].
  cbv zeta. repeat split.
  - rewrite Hgs. lia.
  - rewrite Hos. cbn. lia.
  - intros Hs.
    pose proof (run_epochs_checkpoints cfg _ tbs vbs Hs Ha _ _ _ _ H) as Hcp.
    cbv zeta in Hcp. rewrite Z2Nat.id in Hcp by exact He.
    cbn [initial_state tr trace global_step checkpoints app] in Hcp.
    rewrite Hcp by lia.
    rewrite (Z.mul_comm (num_train_epochs cfg)). rewrite Z.add_0_l. reflexivity.
Qed.

Lemma train_loop_ok (cfg : config) (tbs vbs : list Batch) m ls o :
  1 <= n_gpu cfg -> gradient_accumulation_steps cfg <> 0 ->
  logging_steps cfg <> 0
  \/ Z.of_nat (length tbs) < gradient_accumulation_steps cfg ->
  nonempty_features features -> vbs <> [] ->
  exists st', train_loop' cfg tbs vbs m ls o = Returns st'.
Proof.
  intros Hg Ha Hl Hne Hv. unfold train_loop.
  rewrite t_total_value by exact Ha. cbn [Py.bind].
  apply run_epochs_ok; assumption.
Qed.

Lemma train_loop_quiet (cfg : config) (tbs vbs : list Batch) m ls o (st' : state) :
  0 <= Z.of_nat (length tbs) < gradient_accumulation_steps cfg ->
  train_loop' cfg tbs vbs m ls o = Returns st' ->
  global_step (tr st') = 0 /\ optimizer_steps (trace st') = 0.
Proof.
  intros Hn H. unfold train_loop in H.
  rewrite t_total_value in H by lia. cbn [Py.bind] in H.
  apply run_epochs_inv in H; [|lia]. cbv zeta in H.
  rewrite Z.div_small in H by exact Hn.
  cbn [initial_state tr trace global_step] in H. destruct H as [Hgs Hos].
  rewrite Hgs, Hos. cbn. split; lia.
Qed.

(** *** The claims about the orchestrator *)

(** Every training iteration that is an optimizer-step boundary clamps the
    raw logit scale; in the exact model, where it is a rational, the value
    stored lies between 0 and 4.6052. *)
Lemma logit_scale_clamped_at_boundary (cfg : config) (t epoch : Z)
    (st st' : state) (step : Z) (b : Batch) :
  train_batch' cfg t epoch st step b = Returns st' ->
  (step + 1) mod gradient_accumulation_steps cfg = 0 ->
  (0 <= logit_scale (tr st') <= logit_scale_max)%Q.
Proof.
  intros H Hdue. apply train_batch_inv in H. cbv zeta in H.
  destruct H as (_ & _ & _ & _ & _ & _ & Hls).
  destruct (optimizer_step (optimizer (tr st))
              (backward (model (tr st)) (logit_scale (tr st)) b)
              (logit_scale (tr st))) as [[o m] ls] eqn:Hopt.
  rewrite (Hls ltac:(rewrite Hdue; reflexivity) o m ls eq_refl).
  apply LossEngineFacts.clamp_range.
Qed.

(** C4.  With [N] batches per epoch, accumulation factor [A >= 1] and [E]
    epochs: every epoch that completes has called [optimizer.step()] exactly
    [N / A] times and advanced [global_step] by [N / A], so the first epoch
    ends with [global_step = N / A]; when the loops complete, the optimizer
    was stepped [N / A * E] times and [global_step = N / A * E = t_total],
    which [train] returns when it is not 0.  Epochs and loops do complete
    when the collaborators do not fail. *)
Theorem optimizer_steps_per_epoch_and_in_total (cfg : config)
    (tbs vbs : list Batch) (m : Model) (ls : Q) (o : Optim) :
  1 <= gradient_accumulation_steps cfg -> 0 <= num_train_epochs cfg ->
  let q := Z.of_nat (length tbs) / gradient_accumulation_steps cfg in
  let t := q * num_train_epochs cfg in
  t_total cfg (Z.of_nat (length tbs)) = Returns t
  /\ (forall epoch st st',
        run_epoch' cfg t tbs vbs epoch st = Returns st' ->
        optimizer_steps (trace st') = optimizer_steps (trace st) + q
        /\ global_step (tr st') = global_step (tr st) + q)
  /\ (forall st1,
        run_epoch' cfg t tbs vbs 0 (initial_state zero_grad t m ls o) = Returns st1 ->
        global_step (tr st1) = q)
  /\ (forall stf,
        train_loop' cfg tbs vbs m ls o = Returns stf ->
        optimizer_steps (trace stf) = q * num_train_epochs cfg
        /\ global_step (tr stf) = t
        /\ (t <> 0 ->
            exists avg, train' cfg tbs vbs m ls o = Returns (t, avg)))
  /\ (1 <= n_gpu cfg -> logging_steps cfg <> 0 ->
      nonempty_features features -> vbs <> [] ->
      (forall epoch st, exists st', run_epoch' cfg t tbs vbs epoch st = Returns st')
      /\ exists stf, train_loop' cfg tbs vbs m ls o = Returns stf).
Proof.
  intros Ha He q t.
  assert (Hepoch : forall epoch st st',
             run_epoch' cfg t tbs vbs epoch st = Returns st' ->
             optimizer_steps (trace st') = optimizer_steps (trace st) + q
             /\ global_step (tr st') = global_step (tr st) + q).
  { intros epoch st st' H'.
    apply run_epoch_inv in H'; [|lia]. cbv zeta in H'.
    destruct H' as (_ & Hgs & Hos & _). split; assumption. }
  split; [apply t_total_value; lia|]. split; [exact Hepoch|]. split; [|split].
  - intros st1 H1. destruct (Hepoch _ _ _ H1) as [_ Hgs]. rewrite Hgs. cbn. lia.
  - intros stf Hf. pose proof Hf as Hf'.
    apply train_loop_inv in Hf'; [|lia|exact He]. cbv zeta in Hf'.
    destruct Hf' as (Hgs & Hos & _). fold q in Hgs, Hos. fold t in Hgs, Hos.
    split; [exact Hos|]. split; [exact Hgs|].
    intros Ht. unfold train. rewrite Hf. cbn [Py.bind]. rewrite Hgs.
    unfold Py.truediv. destruct (Z.eqb_spec t 0); [contradiction|].
    cbn [Py.bind]. eexists. reflexivity.
  - intros Hg Hl Hne Hv. split.
    + intros epoch st.
      apply (run_epoch_ok cfg t tbs vbs epoch st Hg ltac:(lia) (or_introl Hl) Hne Hv).
    + apply (train_loop_ok cfg tbs vbs m ls o Hg ltac:(lia) (or_introl Hl) Hne Hv).
Qed.

(** C6.  With [save_steps = 0] the test of line 122 never divides by zero
    and holds exactly when [global_step] equals [t_total]; a run whose loops
    complete has called [save_checkpoint] once, in the last epoch, when
    [global_step] reached [t_total] (and not at all when [t_total] is 0).
    The loops do complete when the collaborators do not fail. *)
Theorem final_checkpoint_only_when_save_steps_zero (cfg : config)
    (tbs vbs : list Batch) (m : Model) (ls : Q) (o : Optim) :
  save_steps cfg = 0 ->
  (forall gs t, save_due cfg gs t = Returns (gs =? t))
  /\ (1 <= gradient_accumulation_steps cfg -> 0 <= num_train_epochs cfg ->
      let t := Z.of_nat (length tbs) / gradient_accumulation_steps cfg
               * num_train_epochs cfg in
      (forall stf,
         train_loop' cfg tbs vbs m ls o = Returns stf ->
         global_step (tr stf) = t
         /\ checkpoints (trace stf)
            = if 0 <? t then [(num_train_epochs cfg - 1, t)] else [])
      /\ (1 <= n_gpu cfg -> logging_steps cfg <> 0 ->
          nonempty_features features -> vbs <> [] ->
          exists stf, train_loop' cfg tbs vbs m ls o = Returns stf)).
Proof.
  intros Hs. split.
  - intros gs t. rewrite save_due_value. unfold should_save. rewrite Hs. reflexivity.
  - intros Ha He t. split.
    + intros stf Hf. apply train_loop_inv in Hf; [|lia|exact He]. cbv zeta in Hf.
      destruct Hf as (Hgs & _ & Hcp). split; [exact Hgs|]. apply Hcp. exact Hs.
    + intros Hg Hl Hne Hv.
      apply (train_loop_ok cfg tbs vbs m ls o Hg ltac:(lia) (or_introl Hl) Hne Hv).
Qed.

(** C7.  A validation pass that completes leaves [global_step],
    [global_loss], the model parameters, the raw logit scale, the
    optimizer and the scheduler as they were, and only adds reporting
    events to the trace; it completes whenever the collaborators do not
    fail. *)
Theorem validation_preserves_training_state (cfg : config) (vbs : list Batch)
    (st : state) :
  (forall st', validate' cfg vbs st = Returns st' ->
     tr st' = tr st
     /\ optimizer_steps (trace st') = optimizer_steps (trace st)
     /\ exists evs, trace st' = trace st ++ evs /\ forallb is_report evs = true)
  /\ (1 <= n_gpu cfg -> nonempty_features features -> vbs <> [] ->
      exists st', validate' cfg vbs st = Returns st').
Proof.
  split.
  - intros st' H. pose proof (validate_observables _ _ _ _ H) as (Ht & Hos & _).
    apply validate_inv in H. destruct H as (_ & Hev & _). auto.
  - intros Hg Hne Hv. apply validate_ok; assumption.
Qed.


(** C10.  When an epoch has fewer batches than the accumulation factor, no
    boundary is reached: whenever the loops complete, [global_step] is
    still 0 and the optimizer was never stepped, and [train] always ends
    with an exception; when the collaborators do not fail, the loops do
    complete and that exception is the [ZeroDivisionError] of line 172. *)
Theorem train_without_boundary_raises (cfg : config) (tbs vbs : list Batch)
    (m : Model) (ls : Q) (o : Optim) :
  Z.of_nat (length tbs) < gradient_accumulation_steps cfg ->
  (forall st, train_loop' cfg tbs vbs m ls o = Returns st ->
     global_step (tr st) = 0 /\ optimizer_steps (trace st) = 0)
  /\ (exists e, train' cfg tbs vbs m ls o = Raises e)
  /\ (1 <= n_gpu cfg -> nonempty_features features -> vbs <> [] ->
      (exists st, train_loop' cfg tbs vbs m ls o = Returns st)
      /\ train' cfg tbs vbs m ls o = Raises ZeroDivisionError).
Proof.
  intros Hn. pose proof (Nat2Z.is_nonneg (length tbs)) as Hn0.
  assert (Hquiet : forall st, train_loop' cfg tbs vbs m ls o = Returns st ->
             global_step (tr st) = 0 /\ optimizer_steps (trace st) = 0).
  { intros st H. apply (train_loop_quiet cfg tbs vbs m ls o); [lia|exact H]. }
  assert (Hret : forall st, train_loop' cfg tbs vbs m ls o = Returns st ->
             train' cfg tbs vbs m ls o = Raises ZeroDivisionError).
  { intros st H. unfold train. rewrite H. cbn [Py.bind].
    destruct (Hquiet st H) as [Hgs _]. rewrite Hgs. reflexivity. }
  split; [exact Hquiet|]. split.
  - destruct (train_loop' cfg tbs vbs m ls o) as [st|e] eqn:Hl.
    + exists ZeroDivisionError. apply (Hret st). reflexivity.
    + exists e. unfold train. rewrite Hl. reflexivity.
  - intros Hg Hne Hv.
    destruct (train_loop_ok cfg tbs vbs m ls o Hg ltac:(lia) (or_intror Hn) Hne Hv)
      as [st Hst].
    split; [exists st; exact Hst | apply (Hret st Hst)].
Qed.

End OrchestratorFacts.

(** ** The theorems on a concrete run

    The collaborators of [Stub], one GPU, a logging interval of 1. *)

Lemma stub_features_nonempty : nonempty_features Stub.features.
Proof. intros m mode b. split; discriminate. Defined.

(** The first iteration with an accumulation factor of 1 is a boundary. *)
Lemma logit_scale_clamped_at_boundary_witness :
  exists st', Stub.first_step (Stub.cfg 1 1 0) = Returns st'
              /\ (0 <= logit_scale (tr st') <= logit_scale_max)%Q.
Proof.
  eexists. split.
  - vm_compute. reflexivity.
  - eapply (logit_scale_clamped_at_boundary unit unit unit Stub.features Stub.texp
              Stub.cross_entropy Stub.backward Stub.optimizer_step Stub.zero_grad
              (Stub.cfg 1 1 0) 1 0 Stub.start _ 0 tt).
    + vm_compute. reflexivity.
    + reflexivity.
Defined.

(** Five batches, an accumulation factor of 2 and two epochs: 4 steps. *)
Lemma optimizer_steps_per_epoch_and_in_total_witness :
  exists stf avg,
    Stub.train_loop (Stub.cfg 2 2 0) [tt; tt; tt; tt; tt] [tt] = Returns stf
    /\ optimizer_steps (trace stf) = 4
    /\ global_step (tr stf) = 4
    /\ Stub.train (Stub.cfg 2 2 0) [tt; tt; tt; tt; tt] [tt] = Returns (4, avg).
Proof.
  pose proof (optimizer_steps_per_epoch_and_in_total unit unit unit Stub.features
                Stub.texp Stub.cross_entropy Stub.backward Stub.optimizer_step
                Stub.zero_grad (Stub.cfg 2 2 0) [tt; tt; tt; tt; tt] [tt] tt 0%Q tt
                ltac:(cbn; lia) ltac:(cbn; lia)) as H.
  cbv zeta in H. destruct H as (_ & _ & _ & Hinv & Hok).
  destruct (Hok ltac:(cbn; lia) ltac:(cbn; lia) stub_features_nonempty
              ltac:(discriminate)) as [_ [stf Hf]].
  destruct (Hinv stf Hf) as (Hos & Hgs & Hret).
  destruct (Hret ltac:(vm_compute; discriminate)) as [avg Havg].
  exists stf, avg. repeat split; assumption.
Defined.

(** The same run with [save_steps = 0]: one checkpoint, in epoch 1 at step 4. *)
Lemma final_checkpoint_only_when_save_steps_zero_witness :
  save_due (Stub.cfg 2 2 0) 3 4 = Returns false
  /\ exists stf, Stub.train_loop (Stub.cfg 2 2 0) [tt; tt; tt; tt; tt] [tt] = Returns stf
                 /\ checkpoints (trace stf) = [(1, 4)].
Proof.
  pose proof (final_checkpoint_only_when_save_steps_zero unit unit unit Stub.features
                Stub.texp Stub.cross_entropy Stub.backward Stub.optimizer_step
                Stub.zero_grad (Stub.cfg 2 2 0) [tt; tt; tt; tt; tt] [tt] tt 0%Q tt
                eq_refl) as [Hdue Hrun].
  split; [apply Hdue|].
  specialize (Hrun ltac:(cbn; lia) ltac:(cbn; lia)).
  cbv zeta in Hrun. destruct Hrun as [Hinv Hok].
  destruct (Hok ltac:(cbn; lia) ltac:(cbn; lia) stub_features_nonempty
              ltac:(discriminate)) as [stf Hf].
  exists stf. split; [exact Hf | apply (Hinv stf Hf)].
Defined.

(** One validation batch from the initial state. *)
Lemma validation_preserves_training_state_witness :
  exists st', Stub.validate (Stub.cfg 1 1 0) [tt] = Returns st'
              /\ tr st' = tr Stub.start.
Proof.
  pose proof (validation_preserves_training_state unit unit unit Stub.features
                Stub.texp Stub.cross_entropy (Stub.cfg 1 1 0) [tt] Stub.start)
    as [Hframe Hok].
  destruct (Hok ltac:(cbn; lia) stub_features_nonempty ltac:(discriminate)) as [st' H'].
  exists st'. split; [exact H'|]. apply (Hframe st' H').
Defined.


(** Two batches and an accumulation factor of 3. *)
Lemma train_without_boundary_raises_witness :
  Stub.train (Stub.cfg 3 2 0) [tt; tt] [tt] = Raises ZeroDivisionError.
Proof.
  pose proof (train_without_boundary_raises unit unit unit Stub.features Stub.texp
                Stub.cross_entropy Stub.backward Stub.optimizer_step Stub.zero_grad
                (Stub.cfg 3 2 0) [tt; tt] [tt] tt 0%Q tt ltac:(cbn; lia))
    as (_ & _ & H).
  apply H; [cbn; lia | exact stub_features_nonempty | discriminate].
Defined.

(** * Further properties of the code *)

(** ** The match count of line 88 *)

Module LossEngineMore.

Import LossEngineFacts.

Lemma Qltb_true (x y : Q) : Qltb x y = true <-> (x < y)%Q.
Proof.
  unfold Qltb. rewrite negb_true_iff. split.
  - intros H. apply Qnot_le_lt. intros Hle.
    apply Qle_bool_iff in Hle. congruence.
  - intros H. destruct (Qle_bool y x) eqn:E; [|reflexivity].
    apply Qle_bool_iff in E. exfalso. apply (Qlt_not_le _ _ H E).
Qed.

Lemma Qltb_false (x y : Q) : Qltb x y = false <-> Qle_bool y x = true.
Proof. unfold Qltb. rewrite negb_false_iff. reflexivity. Qed.

(** [row_max x l] is an entry of [x :: l] and no entry is larger. *)
Lemma row_max_in (l : list Q) : forall x, In (row_max x l) (x :: l).
Proof.
  induction l as [|y l IH]; intros x; cbn; [left; reflexivity|].
  destruct (Qltb x y).
  - right. apply (IH y).
  - destruct (IH x) as [H|H]; [left; exact H | right; right; exact H].
Qed.

Lemma row_max_ge_start (l : list Q) : forall x, (x <= row_max x l)%Q.
Proof.
  induction l as [|y l IH]; intros x; cbn; [apply Qle_refl|].
  destruct (Qltb x y) eqn:E.
  - apply Qle_trans with y; [apply Qlt_le_weak, Qltb_true, E | apply IH].
  - apply IH.
Qed.

Lemma row_max_ge (l : list Q) : forall x y, In y (x :: l) -> (y <= row_max x l)%Q.
Proof.
  induction l as [|z l IH]; intros x y Hin.
  - destruct Hin as [Hx|[]]. subst y. apply Qle_refl.
  - destruct Hin as [Hx|[Hz|Hin]].
    + subst y. apply (row_max_ge_start (z :: l)).
    + subst y. cbn. destruct (Qltb x z) eqn:E.
      * apply row_max_ge_start.
      * apply Qle_trans with x; [apply Qle_bool_iff, Qltb_false, E | apply row_max_ge_start].
    + cbn. destruct (Qltb x z); apply IH; right; exact Hin.
Qed.

Lemma argmax_from_bounds (l : list Q) :
  forall (i best : nat) (bv : Q),
    (best < i)%nat ->
    (argmax_from l i best bv = best \/ (i <= argmax_from l i best bv)%nat)
    /\ (argmax_from l i best bv < i + length l)%nat.
Proof.
  induction l as [|x l IH]; intros i best bv Hb; cbn.
  - split; [left; reflexivity | lia].
  - destruct (Qltb bv x).
    + destruct (IH (S i) i x ltac:(lia)) as [[H|H] Hlt]; split; lia.
    + destruct (IH (S i) best bv ltac:(lia)) as [[H|H] Hlt]; split; lia.
Qed.

Lemma argmax_from_app (p s : list Q) :
  forall (i best : nat) (bv : Q),
    argmax_from (p ++ s) i best bv
    = argmax_from s (i + length p) (argmax_from p i best bv) (row_max bv p).
Proof.
  induction p as [|x p IH]; intros i best bv; cbn.
  - rewrite Nat.add_0_r. reflexivity.
  - destruct (Qltb bv x); rewrite IH; f_equal; lia.
Qed.

Lemma argmax_from_stays (s : list Q) :
  forall (j best : nat) (bv : Q),
    (best < j)%nat ->
    (argmax_from s j best bv <? j)%nat = forallb (fun y => Qle_bool y bv) s.
Proof.
  induction s as [|x s IH]; intros j best bv Hb; cbn.
  - apply Nat.ltb_lt. exact Hb.
  - destruct (Qltb bv x) eqn:E.
    + unfold Qltb in E. apply negb_true_iff in E. rewrite E. cbn.
      destruct (argmax_from_bounds s (S j) j x ltac:(lia)) as [[H|H] _];
        apply Nat.ltb_ge; lia.
    + apply Qltb_false in E. rewrite E. cbn.
      rewrite <- (IH (S j) best bv ltac:(lia)).
      destruct (argmax_from_bounds s (S j) best bv ltac:(lia)) as [[H|H] _].
      * rewrite H. apply eq_trans with true; [|symmetry]; apply Nat.ltb_lt; lia.
      * apply eq_trans with false; [|symmetry]; apply Nat.ltb_ge; lia.
Qed.

(** X12.  On square logits, line 88 adds 1 exactly when no entry outside
    row 0 exceeds the maximum of row 0 (the first maximum of the whole
    matrix then lies in row 0), and 0 otherwise: the diagonal plays no
    role. *)
Theorem acc_increment_looks_at_row_0 (x : Q) (p : list Q) (rest : matrix) :
  length (x :: p) = length ((x :: p) :: rest) ->
  acc_increment ((x :: p) :: rest)
  = Returns (if forallb (fun y => Qle_bool y (row_max x p)) (concat rest)
             then 1 else 0).
Proof.
  intros Hsq. unfold acc_increment, argmax.
  cbn [concat app argmax_list Py.bind].
  rewrite argmax_from_app, eq_sum_arange, <- Hsq.
  destruct (argmax_from_bounds p 1 0 x ltac:(lia)) as [_ Hb].
  cbn [length]. change (S (length p)) with (1 + length p)%nat.
  rewrite (argmax_from_stays (concat rest) (1 + length p) _ (row_max x p) Hb).
  reflexivity.
Qed.

(** Both rows peak on the diagonal, yet the largest entry is in row 1. *)
Lemma acc_increment_looks_at_row_0_witness :
  acc_increment [[0.5; 0.2]; [0.1; 0.9]]%Q = Returns 0
  /\ rowwise_matches [[0.5; 0.2]; [0.1; 0.9]]%Q = 2.
Proof.
  split; [|reflexivity].
  rewrite (acc_increment_looks_at_row_0 0.5 [0.2] [[0.1; 0.9]])%Q by reflexivity.
  reflexivity.
Defined.

End LossEngineMore.

(** ** Schedules of events *)

Lemma zseq_app (n m : nat) :
  forall a, zseq a (n + m) = zseq a n ++ zseq (a + Z.of_nat n) m.
Proof.
  induction n as [|n IH]; intros a.
  - cbn. rewrite Z.add_0_r. reflexivity.
  - cbn [Nat.add zseq app]. rewrite IH. do 3 f_equal. lia.
Qed.

Lemma in_zseq (n : nat) :
  forall a g, In g (zseq a n) <-> a <= g < a + Z.of_nat n.
Proof.
  induction n as [|n IH]; intros a g; cbn [zseq In].
  - split; [contradiction | lia].
  - rewrite IH. lia.
Qed.

(** The global steps of a schedule are the selected steps, in order. *)
Lemma schedule_steps (P : Z -> bool) (q : Z) (n : nat) :
  0 <= q ->
  forall epoch gs,
    map snd (schedule P q n epoch gs)
    = filter P (zseq (gs + 1) (Z.to_nat (Z.of_nat n * q))).
Proof.
  intros Hq. induction n as [|n IH]; intros epoch gs; [reflexivity|].
  cbn [schedule]. rewrite map_app, map_map. cbn [snd]. rewrite map_id, IH.
  assert (Hnq : 0 <= Z.of_nat n * q) by (apply Z.mul_nonneg_nonneg; lia).
  replace (Z.of_nat (S n) * q) with (q + Z.of_nat n * q) by lia.
  rewrite Z2Nat.inj_add by assumption.
  rewrite zseq_app, filter_app, Z2Nat.id by exact Hq.
  do 3 f_equal. lia.
Qed.

(** The epoch attached to a step of a schedule is the one the step falls in. *)
Lemma schedule_epochs (P : Z -> bool) (q : Z) (n : nat) :
  0 <= q ->
  forall epoch gs e g,
    In (e, g) (schedule P q n epoch gs) ->
    epoch <= e < epoch + Z.of_nat n
    /\ gs + (e - epoch) * q < g <= gs + (e - epoch + 1) * q
    /\ P g = true.
Proof.
  intros Hq. induction n as [|n IH]; intros epoch gs e g Hin; [contradiction|].
  cbn [schedule] in Hin. apply in_app_or in Hin. destruct Hin as [Hin|Hin].
  - apply in_map_iff in Hin. destruct Hin as (g' & [= <- <-] & Hg).
    apply filter_In in Hg. destruct Hg as [Hg HP]. apply in_zseq in Hg.
    rewrite Z2Nat.id in Hg by exact Hq.
    split; [lia|]. split; [|exact HP]. rewrite Z.sub_diag. lia.
  - apply IH in Hin. destruct Hin as (He & Hg & HP).
    split; [lia|]. split; [|exact HP].
    replace (e - epoch) with (e - (epoch + 1) + 1) by lia. lia.
Qed.

(** The part of a trace seen by a projection that keeps one kind of
    boundary event. *)
Section Projection.

Variable cfg : config.
Variable t : Z.
Variable proj : list event -> list (Z * Z).
Variable P : Z -> bool.
Hypothesis proj_app : forall l1 l2, proj (l1 ++ l2) = proj l1 ++ proj l2.
Hypothesis proj_reports : forall l, forallb is_report l = true -> proj l = [].
Hypothesis proj_boundary :
  forall epoch g, proj (boundary_events cfg t epoch g)
                  = if P g then [(epoch, g)] else [].

Lemma proj_train_events (epoch : Z) (n : nat) :
  0 < gradient_accumulation_steps cfg ->
  forall step gs,
    proj (train_events cfg t epoch step gs n)
    = map (pair epoch)
        (filter P (zseq (gs + 1)
                     (Z.to_nat ((step + Z.of_nat n) / gradient_accumulation_steps cfg
                                - step / gradient_accumulation_steps cfg)))).
Proof.
  intros Ha. induction n as [|n IH]; intros step gs.
  - cbn [train_events Z.of_nat]. rewrite Z.add_0_r, Z.sub_diag.
    cbn. exact (proj_reports [] eq_refl).
  - cbn [train_events]. rewrite !proj_app, IH.
    assert (Hw : proj (if wandb cfg then [WandbLog] else []) = []).
    { apply proj_reports. destruct (wandb cfg); reflexivity. }
    rewrite Hw. cbn [app].
    pose proof (div_succ (gradient_accumulation_steps cfg) step Ha) as Hd.
    assert (Hmono : (step + 1) / gradient_accumulation_steps cfg
                    <= (step + 1 + Z.of_nat n) / gradient_accumulation_steps cfg).
    { apply Z.div_le_mono; lia. }
    replace (step + Z.of_nat (S n)) with (step + 1 + Z.of_nat n) by lia.
    destruct ((step + 1) mod gradient_accumulation_steps cfg =? 0).
    + rewrite proj_boundary.
      replace (Z.to_nat ((step + 1 + Z.of_nat n) / gradient_accumulation_steps cfg
                         - step / gradient_accumulation_steps cfg))
        with (S (Z.to_nat ((step + 1 + Z.of_nat n) / gradient_accumulation_steps cfg
                           - (step + 1) / gradient_accumulation_steps cfg))) by lia.
      cbn [zseq filter]. destruct (P (gs + 1)); reflexivity.
    + rewrite (proj_reports [] eq_refl). cbn [app].
      rewrite Hd, Z.add_0_r. reflexivity.
Qed.

End Projection.

Lemma loggings_app (l1 l2 : list event) :
  loggings (l1 ++ l2) = loggings l1 ++ loggings l2.
Proof.
  induction l1 as [|e l1 IH]; [reflexivity|].
  destruct e; cbn; rewrite IH; reflexivity.
Qed.

Lemma reports_no_logging (l : list event) :
  forallb is_report l = true -> loggings l = [].
Proof.
  induction l as [|e l IH]; [reflexivity|].
  cbn [forallb]. intros [He Hl]%andb_true_iff.
  destruct e; try discriminate; cbn; apply IH; exact Hl.
Qed.

Lemma checkpoints_boundary (cfg : config) (t epoch g : Z) :
  checkpoints (boundary_events cfg t epoch g)
  = if should_save cfg g t then [(epoch, g)] else [].
Proof.
  unfold boundary_events. rewrite !checkpoints_app.
  destruct (should_log cfg g), (should_save cfg g t); reflexivity.
Qed.

Lemma loggings_boundary (cfg : config) (t epoch g : Z) :
  loggings (boundary_events cfg t epoch g)
  = if should_log cfg g then [(epoch, g)] else [].
Proof.
  unfold boundary_events. rewrite !loggings_app.
  destruct (should_log cfg g), (should_save cfg g t); reflexivity.
Qed.

(** ** More about the orchestrator *)

Section OrchestratorMore.

Variables Batch Model Optim : Type.
Variable features : Model -> bool -> Batch -> matrix * matrix.
Variable texp : Q -> Q.
Variable cross_entropy : matrix -> list nat -> Q.
Variable backward : Model -> Q -> Batch -> Model.
Variable optimizer_step : Optim -> Model -> Q -> Optim * Model * Q.
Variable zero_grad : Model -> Model.

Local Notation state := (state Model Optim).
Local Notation loss_engine' := (loss_engine features texp cross_entropy).
Local Notation optimizer_boundary' := (optimizer_boundary optimizer_step zero_grad).
Local Notation train_batch' :=
  (train_batch features texp cross_entropy backward optimizer_step zero_grad).
Local Notation train_batches' :=
  (train_batches features texp cross_entropy backward optimizer_step zero_grad).
Local Notation valid_batch' := (valid_batch features texp cross_entropy).
Local Notation valid_batches' := (valid_batches features texp cross_entropy).
Local Notation validate' := (validate features texp cross_entropy).
Local Notation run_epoch' :=
  (run_epoch features texp cross_entropy backward optimizer_step zero_grad).
Local Notation run_epochs' :=
  (run_epochs features texp cross_entropy backward optimizer_step zero_grad).
Local Notation train_loop' :=
  (train_loop features texp cross_entropy backward optimizer_step zero_grad).
Local Notation train' :=
  (train features texp cross_entropy backward optimizer_step zero_grad).
Local Notation main' :=
  (main features texp cross_entropy backward optimizer_step zero_grad).

(** *** One batch, in full *)

Lemma loss_engine_facts (cfg : config) (c : core Model Optim) mode b lc :
  loss_engine' cfg c mode b = Returns lc ->
  0 <= matches lc <= 1
  /\ loss lc = ((image_loss lc + text_loss lc) / 2)%Q.
Proof.
  unfold loss_engine. destruct (features (model c) mode b) as [img txt].
  intros H. inv_bind H. inv_bind H. injection H as <-. cbn [matches loss image_loss text_loss].
  split; [|reflexivity].
  eapply LossEngineFacts.acc_increment_at_most_one. eassumption.
Qed.

Lemma loss_engine_raises (cfg : config) (c : core Model Optim) mode b :
  n_gpu cfg <= 0 -> loss_engine' cfg c mode b = Raises UnboundLocalError.
Proof.
  intros Hg. unfold loss_engine, exp_logit_scale.
  destruct (features (model c) mode b) as [img txt].
  destruct (Z.eqb_spec (n_gpu cfg) 1); [lia|].
  destruct (Z.gtb_spec (n_gpu cfg) 1); [lia|]. reflexivity.
Qed.

Lemma optimizer_boundary_full (cfg : config) (t epoch : Z) (st st' : state) :
  optimizer_boundary' cfg t epoch st = Returns st' ->
  logging_steps cfg <> 0
  /\ scheduler (tr st') = scheduler_step (scheduler (tr st))
  /\ trace st' = trace st ++ boundary_events cfg t epoch (global_step (tr st) + 1).
Proof.
  unfold optimizer_boundary.
  destruct (optimizer_step _ _ _) as [[o m] ls].
  unfold Py.mod_. destruct (Z.eqb_spec (logging_steps cfg) 0) as [H0|Hnz];
    [discriminate|]. cbn [Py.bind].
  rewrite save_due_value. cbn [Py.bind]. intros [= <-].
  cbn [tr trace scheduler]. split; [exact Hnz|]. split; [reflexivity|].
  unfold boundary_events, should_log.
  destruct ((global_step (tr st) + 1) mod logging_steps cfg =? 0),
    (should_save cfg (global_step (tr st) + 1) t);
    rewrite <- ?app_assoc; cbn [app]; rewrite ?app_nil_r; reflexivity.
Qed.

Lemma train_batch_full (cfg : config) (t epoch : Z) (st st' : state) (step : Z) (b : Batch) :
  train_batch' cfg t epoch st step b = Returns st' ->
  let due := (step + 1) mod gradient_accumulation_steps cfg =? 0 in
  exists lc,
    loss_engine' cfg (tr st) true b = Returns lc
    /\ trace st' = trace st ++ train_events cfg t epoch step (global_step (tr st)) 1
    /\ ep st' = mkLocals (training (ep st)) (train_img_acc (ep st) + matches lc)
                  (valid_loss (ep st)) (valid_img (ep st)) (valid_txt (ep st))
                  (val_img_acc (ep st)) (final_step (ep st))
    /\ scheduler (tr st')
       = (if due then scheduler_step (scheduler (tr st)) else scheduler (tr st))
    /\ (due = true -> logging_steps cfg <> 0)
    /\ (due = false -> logit_scale (tr st') = logit_scale (tr st)).
Proof.
  unfold train_batch. intros H. inv_bind H. exists a. split; [reflexivity|].
  unfold Py.mod_ in H.
  destruct (Z.eqb_spec (gradient_accumulation_steps cfg) 0) as [H0|Hnz];
    [discriminate H|]. cbn [Py.bind] in H. cbv zeta. cbn [train_events].
  destruct ((step + 1) mod gradient_accumulation_steps cfg =? 0).
  - pose proof H as Hinv. apply optimizer_boundary_inv in Hinv.
    cbv zeta in Hinv. destruct Hinv as (_ & _ & _ & Hep & _).
    apply optimizer_boundary_full in H. destruct H as (Hl & Hs & Htr).
    cbn [tr ep trace scheduler global_step] in *.
    rewrite Htr, Hep, Hs. repeat split; try discriminate; try (intros _; exact Hl).
    destruct (wandb cfg); rewrite <- ?app_assoc, ?app_nil_r; reflexivity.
  - injection H as <-. cbn [tr ep trace scheduler logit_scale].
    repeat split; try discriminate.
    destruct (wandb cfg); cbn [app]; rewrite ?app_nil_r; reflexivity.
Qed.

(** *** The loops, in full *)

Lemma train_batches_full (cfg : config) (t epoch : Z) (bs : list Batch) :
  0 < gradient_accumulation_steps cfg ->
  forall (step : Z) (st st' : state),
    train_batches' cfg t epoch step bs st = Returns st' ->
    trace st' = trace st
                ++ train_events cfg t epoch step (global_step (tr st)) (length bs)
    /\ (exists k, 0 <= k <= Z.of_nat (length bs)
                  /\ ep st' = mkLocals (training (ep st)) (train_img_acc (ep st) + k)
                                (valid_loss (ep st)) (valid_img (ep st))
                                (valid_txt (ep st)) (val_img_acc (ep st))
                                (final_step (ep st)))
    /\ last_epoch (scheduler (tr st')) - global_step (tr st')
       = last_epoch (scheduler (tr st)) - global_step (tr st)
    /\ num_warmup_steps (scheduler (tr st')) = num_warmup_steps (scheduler (tr st))
    /\ num_training_steps (scheduler (tr st')) = num_training_steps (scheduler (tr st))
    /\ (global_step (tr st) < global_step (tr st') -> logging_steps cfg <> 0)
    /\ (bs <> [] -> 1 <= n_gpu cfg).
Proof.
  intros Ha. induction bs as [|b bs IH]; intros step st st' H.
  - cbn in H. injection H as <-. cbn [length train_events].
    rewrite app_nil_r. split; [reflexivity|]. split.
    + exists 0. split; [cbn; lia|]. rewrite Z.add_0_r. destruct (ep st); reflexivity.
    + repeat split; try lia. congruence.
  - cbn in H. inv_bind H.
    pose proof E as Hinv. apply train_batch_inv in Hinv.
    cbv zeta in Hinv. destruct Hinv as (Hg & _ & Hgs & _).
    apply train_batch_full in E. cbv zeta in E.
    destruct E as (lc & Hlc & Htr & Hep & Hs & Hlog & _).
    apply loss_engine_facts in Hlc. destruct Hlc as [Hm _].
    apply IH in H.
    destruct H as (Htr' & (k & Hk & Hep') & Hle & Hw & Hn & Hlog' & _).
    split; [|split; [|repeat split]].
    + rewrite Htr', Htr, <- app_assoc. f_equal. cbn [length train_events].
      rewrite app_nil_r, Hgs, <- !app_assoc.
      destruct ((step + 1) mod gradient_accumulation_steps cfg =? 0);
        rewrite ?Z.add_0_r; reflexivity.
    + exists (matches lc + k). split; [cbn [length]; lia|].
      rewrite Hep', Hep. cbn. f_equal. lia.
    + rewrite Hle, Hgs, Hs.
      destruct ((step + 1) mod gradient_accumulation_steps cfg =? 0); cbn; lia.
    + rewrite Hw, Hs.
      destruct ((step + 1) mod gradient_accumulation_steps cfg =? 0); reflexivity.
    + rewrite Hn, Hs.
      destruct ((step + 1) mod gradient_accumulation_steps cfg =? 0); reflexivity.
    + intros Hlt.
      destruct ((step + 1) mod gradient_accumulation_steps cfg =? 0) eqn:Hdue.
      * apply Hlog. reflexivity.
      * apply Hlog'. lia.
    + intros _. exact Hg.
Qed.

Lemma valid_batches_full (cfg : config) (bs : list Batch) :
  forall (idx : Z) (st st' : state),
    valid_batches' cfg idx bs st = Returns st' ->
    (exists k, 0 <= k <= Z.of_nat (length bs)
               /\ val_img_acc (ep st') = val_img_acc (ep st) + k)
    /\ train_img_acc (ep st') = train_img_acc (ep st)
    /\ ((valid_loss (ep st) == (valid_img (ep st) + valid_txt (ep st)) / 2)%Q ->
        (valid_loss (ep st') == (valid_img (ep st') + valid_txt (ep st')) / 2)%Q)
    /\ (bs <> [] -> final_step (ep st') = Some (idx + Z.of_nat (length bs) - 1))
    /\ (bs <> [] -> 1 <= n_gpu cfg).
Proof.
  induction bs as [|b bs IH]; intros idx st st' H.
  - cbn in H. injection H as <-. split; [exists 0; cbn; lia|].
    repeat split; congruence.
  - cbn in H. inv_bind H. unfold valid_batch in E. inv_bind E.
    injection E as <-.
    pose proof E0 as Hg. apply loss_engine_inv in Hg.
    apply loss_engine_facts in E0. destruct E0 as [Hm Hl].
    pose proof H as Hnil. apply valid_batches_inv in Hnil.
    destruct Hnil as (_ & _ & _ & Hnil).
    apply IH in H. cbn [ep val_img_acc train_img_acc valid_loss valid_img valid_txt] in H.
    destruct H as ((k & Hk & Hv) & Ht & Hq & Hf & _).
    split; [|repeat split].
    + exists (matches a0 + k). split; [cbn [length]; lia|]. rewrite Hv. lia.
    + exact Ht.
    + intros Hq0. apply Hq. rewrite Hl, Hq0. field.
    + intros _. destruct bs as [|b' bs].
      * rewrite (Hnil eq_refl). cbn. f_equal. lia.
      * rewrite Hf by discriminate. f_equal. cbn [length]. lia.
    + intros _. exact Hg.
Qed.

Lemma validate_full (cfg : config) (vbs : list Batch) (st st' : state) :
  validate' cfg vbs st = Returns st' ->
  tr st' = tr st
  /\ train_img_acc (ep st') = train_img_acc (ep st)
  /\ 0 <= val_img_acc (ep st') <= Z.of_nat (length vbs)
  /\ (valid_loss (ep st') == (valid_img (ep st') + valid_txt (ep st')) / 2)%Q
  /\ (exists f, final_step (ep st') = Some f
                /\ (vbs <> [] -> f = Z.of_nat (length vbs) - 1)
                /\ (vbs = [] -> final_step (ep st) = Some f)
                /\ trace st'
                   = trace st ++ (if wandb cfg then [WandbLog] else [])
                     ++ [ValidInfo (valid_loss (ep st') / inject_Z (f + 1))
                           (val_img_acc (ep st'))])
  /\ (vbs <> [] -> 1 <= n_gpu cfg).
Proof.
  unfold validate. intros H. inv_bind H.
  pose proof E as Hinv. apply valid_batches_inv in Hinv.
  destruct Hinv as (Ht & Htr & _ & Hnil).
  apply valid_batches_full in E.
  cbn [tr trace ep val_img_acc train_img_acc valid_loss valid_img valid_txt] in *.
  destruct E as ((k & Hk & Hv) & Hta & Hq & Hf & Hg).
  destruct (final_step (ep a)) as [f|] eqn:Hfs; [|discriminate H].
  injection H as <-. cbn [tr trace ep].
  split; [exact Ht|]. split; [exact Hta|]. split; [lia|]. split.
  { apply Hq. field. }
  split; [|exact Hg].
  exists f. split; [exact Hfs|]. split; [|split].
  - intros Hne. specialize (Hf Hne). injection Hf as ->. lia.
  - intros ->. rewrite (Hnil eq_refl) in Hfs. exact Hfs.
  - rewrite Htr. destruct (wandb cfg); rewrite <- ?app_assoc; reflexivity.
Qed.

Lemma run_epoch_full (cfg : config) (t : Z) (tbs vbs : list Batch) (epoch : Z)
    (st st' : state) :
  0 < gradient_accumulation_steps cfg ->
  run_epoch' cfg t tbs vbs epoch st = Returns st' ->
  (exists evs, trace st'
               = trace st
                 ++ train_events cfg t epoch 0 (global_step (tr st)) (length tbs)
                 ++ evs
               /\ forallb is_report evs = true)
  /\ 0 <= train_img_acc (ep st') <= Z.of_nat (length tbs)
  /\ 0 <= val_img_acc (ep st') <= Z.of_nat (length vbs)
  /\ last_epoch (scheduler (tr st')) - global_step (tr st')
     = last_epoch (scheduler (tr st)) - global_step (tr st)
  /\ num_warmup_steps (scheduler (tr st')) = num_warmup_steps (scheduler (tr st))
  /\ num_training_steps (scheduler (tr st')) = num_training_steps (scheduler (tr st))
  /\ (global_step (tr st) < global_step (tr st') -> logging_steps cfg <> 0)
  /\ (tbs <> [] \/ vbs <> [] -> 1 <= n_gpu cfg)
  /\ (final_step (ep st) = None -> vbs <> []).
Proof.
  intros Ha H. unfold run_epoch in H. inv_bind H.
  apply train_batches_full in E; [|exact Ha].
  cbn [tr ep trace train_img_acc final_step] in E.
  destruct E as (Htr & (k & Hk & Hep) & Hle & Hw & Hn & Hlog & Hg).
  pose proof H as Hev. apply validate_inv in Hev. destruct Hev as (_ & (evs & Hevs & Hrep) & _).
  apply validate_full in H.
  destruct H as (Ht & Hta & Hv & _ & (f & Hf & _ & Hnil & _) & Hg').
  rewrite Ht. repeat split; try assumption; try lia.
  - exists evs. split; [|exact Hrep]. rewrite Hevs, Htr, <- app_assoc. reflexivity.
  - rewrite Hta, Hep. cbn. lia.
  - rewrite Hta, Hep. cbn. lia.
  - intros [Hne|Hne]; [apply Hg | apply Hg']; exact Hne.
  - intros Hnone Hnil'. specialize (Hnil Hnil'). rewrite Hep in Hnil. cbn in Hnil.
    congruence.
Qed.

(** The projection of the trace of [n] epochs. *)
Lemma run_epochs_projection (cfg : config) (t : Z) (tbs vbs : list Batch)
    (proj : list event -> list (Z * Z)) (P : Z -> bool) :
  (forall l1 l2, proj (l1 ++ l2) = proj l1 ++ proj l2) ->
  (forall l, forallb is_report l = true -> proj l = []) ->
  (forall epoch g, proj (boundary_events cfg t epoch g)
                   = if P g then [(epoch, g)] else []) ->
  0 < gradient_accumulation_steps cfg ->
  forall (n : nat) (epoch : Z) (st st' : state),
    run_epochs' cfg t tbs vbs n epoch st = Returns st' ->
    proj (trace st')
    = proj (trace st)
      ++ schedule P (Z.of_nat (length tbs) / gradient_accumulation_steps cfg) n
           epoch (global_step (tr st)).
Proof.
  intros Happ Hrep Hb Ha. induction n as [|n IH]; intros epoch st st' H.
  - cbn in H. injection H as <-. cbn. rewrite app_nil_r. reflexivity.
  - cbn in H. inv_bind H.
    pose proof E as Hinv. apply run_epoch_inv in Hinv; [|exact Ha].
    cbv zeta in Hinv. destruct Hinv as (_ & Hgs & _).
    apply run_epoch_full in E; [|exact Ha]. destruct E as ((evs & Htr & Hr) & _).
    apply IH in H. rewrite H, Htr, !Happ, (Hrep evs Hr), app_nil_r.
    rewrite (proj_train_events cfg t proj P Happ Hrep Hb epoch _ Ha).
    rewrite Z.add_0_l, Z.div_0_l, Z.sub_0_r by lia.
    cbn [schedule]. rewrite Hgs, <- app_assoc. reflexivity.
Qed.

Lemma run_epochs_scheduler (cfg : config) (t : Z) (tbs vbs : list Batch) :
  0 < gradient_accumulation_steps cfg ->
  forall (n : nat) (epoch : Z) (st st' : state),
    run_epochs' cfg t tbs vbs n epoch st = Returns st' ->
    last_epoch (scheduler (tr st')) - global_step (tr st')
    = last_epoch (scheduler (tr st)) - global_step (tr st)
    /\ num_warmup_steps (scheduler (tr st')) = num_warmup_steps (scheduler (tr st))
    /\ num_training_steps (scheduler (tr st')) = num_training_steps (scheduler (tr st)).
Proof.
  intros Ha. induction n as [|n IH]; intros epoch st st' H.
  - cbn in H. injection H as <-. repeat split.
  - cbn in H. inv_bind H. apply run_epoch_full in E; [|exact Ha].
    destruct E as (_ & _ & _ & Hle & Hw & Hn & _).
    apply IH in H. destruct H as (Hle' & Hw' & Hn').
    repeat split; congruence.
Qed.

(** *** Failures of a run *)

Lemma train_raises_without_gpu (cfg : config) (tbs vbs : list Batch) m ls o :
  n_gpu cfg <= 0 -> gradient_accumulation_steps cfg <> 0 ->
  1 <= num_train_epochs cfg ->
  train' cfg tbs vbs m ls o = Raises UnboundLocalError.
Proof.
  intros Hg Ha He. unfold train, train_loop.
  rewrite t_total_value by exact Ha. cbn [Py.bind].
  destruct (Z.to_nat (num_train_epochs cfg)) as [|n] eqn:Hn; [lia|].
  cbn [run_epochs]. unfold run_epoch.
  destruct tbs as [|b tbs'].
  - cbn [train_batches Py.bind]. unfold validate.
    destruct vbs as [|v vbs'].
    + reflexivity.
    + cbn [valid_batches]. unfold valid_batch.
      rewrite loss_engine_raises by exact Hg. reflexivity.
  - cbn [train_batches]. unfold train_batch.
    rewrite loss_engine_raises by exact Hg. reflexivity.
Qed.

(** X1.  With no GPU ([n_gpu <= 0]) neither branch of lines 79-82 binds
    [logit_scale]: whatever the data and the collaborators are, a run of at
    least one epoch ends in [UnboundLocalError]. *)
Theorem train_needs_a_gpu (cfg : config) (tbs vbs : list Batch)
    (m : Model) (ls : Q) (o : Optim) :
  n_gpu cfg <= 0 -> gradient_accumulation_steps cfg <> 0 ->
  1 <= num_train_epochs cfg ->
  train' cfg tbs vbs m ls o = Raises UnboundLocalError.
Proof. apply train_raises_without_gpu. Qed.

(** X2.  [main] replaces the configured [n_gpu] by the device count of the
    machine, so on a machine without GPU it ends in [UnboundLocalError]
    whatever [n_gpu] the configuration files give. *)
Theorem main_fails_on_cpu (cfg : config) (device_count : Z) (tbs vbs : list Batch)
    (m : Model) (ls : Q) (o : Optim) :
  device_count <= 0 -> gradient_accumulation_steps cfg <> 0 ->
  1 <= num_train_epochs cfg ->
  main' cfg device_count tbs vbs m ls o = Raises UnboundLocalError.
Proof.
  intros Hd Ha He. unfold main.
  apply train_raises_without_gpu; cbn; assumption.
Qed.

Lemma train_batches_raise_at_boundary (cfg : config) (t epoch : Z) (bs : list Batch) :
  1 <= n_gpu cfg -> logging_steps cfg = 0 -> nonempty_features features ->
  forall (step : Z) (st : state),
    0 <= step < gradient_accumulation_steps cfg ->
    gradient_accumulation_steps cfg <= step + Z.of_nat (length bs) ->
    train_batches' cfg t epoch step bs st = Raises ZeroDivisionError.
Proof.
  intros Hg Hl Hne. induction bs as [|b bs IH]; intros step st Hs Hlen.
  - cbn [length Z.of_nat] in Hlen. lia.
  - cbn [train_batches]. unfold train_batch.
    destruct (loss_engine_ok _ _ _ features texp cross_entropy cfg (tr st) true b Hg Hne)
      as [lc Hlc].
    rewrite Hlc. cbn [Py.bind]. unfold Py.mod_ at 1.
    destruct (Z.eqb_spec (gradient_accumulation_steps cfg) 0); [lia|]. cbn [Py.bind].
    destruct (Z.eq_dec (step + 1) (gradient_accumulation_steps cfg)) as [Heq|Hneq].
    + rewrite Heq, Z.mod_same by lia. cbn [Z.eqb].
      unfold optimizer_boundary. destruct (optimizer_step _ _ _) as [[o' m'] ls'].
      unfold Py.mod_. rewrite Hl. reflexivity.
    + rewrite Z.mod_small by lia.
      destruct (Z.eqb_spec (step + 1) 0); [lia|]. cbn [Py.bind].
      apply IH; [lia|]. cbn [length] in Hlen. lia.
Qed.

(** X3.  With [logging_steps = 0], a run that reaches an optimizer-step
    boundary ends in the [ZeroDivisionError] of line 119 at the first
    boundary. *)
Theorem zero_logging_steps_raises (cfg : config) (tbs vbs : list Batch)
    (m : Model) (ls : Q) (o : Optim) :
  logging_steps cfg = 0 -> 1 <= n_gpu cfg ->
  1 <= gradient_accumulation_steps cfg <= Z.of_nat (length tbs) ->
  1 <= num_train_epochs cfg -> nonempty_features features ->
  train' cfg tbs vbs m ls o = Raises ZeroDivisionError.
Proof.
  intros Hl Hg Ha He Hne. unfold train, train_loop.
  rewrite t_total_value by lia. cbn [Py.bind].
  destruct (Z.to_nat (num_train_epochs cfg)) as [|n] eqn:Hn; [lia|].
  cbn [run_epochs]. unfold run_epoch.
  rewrite train_batches_raise_at_boundary by (assumption || lia). reflexivity.
Qed.

(** X4.  With an empty validation loader, [final_step] is never bound: when
    the collaborators do not fail, the run trains its first epoch and then
    ends in the [UnboundLocalError] of the validation report. *)
Theorem empty_validation_loader_raises (cfg : config) (tbs : list Batch)
    (m : Model) (ls : Q) (o : Optim) :
  1 <= n_gpu cfg -> 1 <= gradient_accumulation_steps cfg ->
  logging_steps cfg <> 0 -> 1 <= num_train_epochs cfg ->
  nonempty_features features ->
  train' cfg tbs [] m ls o = Raises UnboundLocalError.
Proof.
  intros Hg Ha Hl He Hne. unfold train, train_loop.
  rewrite t_total_value by lia. cbn [Py.bind].
  destruct (Z.to_nat (num_train_epochs cfg)) as [|n] eqn:Hn; [lia|].
  cbn [run_epochs]. unfold run_epoch.
  match goal with |- context [train_batches' cfg ?t 0 0 tbs ?s0] =>
    destruct (train_batches_ok _ _ _ features texp cross_entropy backward
                optimizer_step zero_grad cfg t 0 tbs Hg ltac:(lia) Hne 0 s0
                (or_introl Hl))
      as [st1 H1]
  end.
  rewrite H1. cbn [Py.bind].
  apply train_batches_full in H1; [|lia].
  destruct H1 as (_ & (k & _ & Hep) & _).
  unfold validate. cbn [valid_batches Py.bind ep final_step].
  rewrite Hep. reflexivity.
Qed.

(** *** What a run that completes has done *)

(** X5.  When the loops complete, the global steps at which
    [save_checkpoint] was called are, in order and once each, the steps [g]
    of [1 .. t_total] with [(save_steps > 0 and g % save_steps == 0) or
    g == t_total]; each is attached to the epoch it falls in. *)
Theorem checkpoints_follow_save_steps (cfg : config) (tbs vbs : list Batch)
    (m : Model) (ls : Q) (o : Optim) (stf : state) :
  1 <= gradient_accumulation_steps cfg -> 0 <= num_train_epochs cfg ->
  train_loop' cfg tbs vbs m ls o = Returns stf ->
  let q := Z.of_nat (length tbs) / gradient_accumulation_steps cfg in
  let t := q * num_train_epochs cfg in
  map snd (checkpoints (trace stf))
  = filter (fun g => should_save cfg g t) (zseq 1 (Z.to_nat t))
  /\ (forall e g, In (e, g) (checkpoints (trace stf)) ->
        0 <= e < num_train_epochs cfg /\ e * q < g <= (e + 1) * q).
Proof.
  intros Ha He H q t. unfold train_loop in H.
  rewrite t_total_value in H by lia. cbn [Py.bind] in H. fold q in H. fold t in H.
  assert (Hq : 0 <= q) by (apply Z.div_pos; lia).
  apply (run_epochs_projection cfg t tbs vbs checkpoints
           (fun g => should_save cfg g t) checkpoints_app reports_no_checkpoint
           (checkpoints_boundary cfg t) ltac:(lia)) in H.
  cbn [initial_state tr trace global_step checkpoints app] in H. fold q in H.
  rewrite H. split.
  - rewrite schedule_steps by exact Hq. rewrite Z2Nat.id by exact He.
    rewrite (Z.mul_comm (num_train_epochs cfg)). reflexivity.
  - intros e g Hin. apply schedule_epochs in Hin; [|exact Hq].
    rewrite Z2Nat.id in Hin by exact He. destruct Hin as (Hr & Hg & _).
    rewrite Z.sub_0_r in Hg. lia.
Qed.

(** X6.  When the loops complete, the training records of line 120 were
    emitted, in order and once each, at the global steps of [1 .. t_total]
    that are multiples of [logging_steps], each with the epoch it falls in. *)
Theorem logging_follows_logging_steps (cfg : config) (tbs vbs : list Batch)
    (m : Model) (ls : Q) (o : Optim) (stf : state) :
  1 <= gradient_accumulation_steps cfg -> 0 <= num_train_epochs cfg ->
  train_loop' cfg tbs vbs m ls o = Returns stf ->
  let q := Z.of_nat (length tbs) / gradient_accumulation_steps cfg in
  let t := q * num_train_epochs cfg in
  map snd (loggings (trace stf))
  = filter (fun g => g mod logging_steps cfg =? 0) (zseq 1 (Z.to_nat t))
  /\ (forall e g, In (e, g) (loggings (trace stf)) ->
        0 <= e < num_train_epochs cfg /\ e * q < g <= (e + 1) * q).
Proof.
  intros Ha He H q t. unfold train_loop in H.
  rewrite t_total_value in H by lia. cbn [Py.bind] in H. fold q in H. fold t in H.
  assert (Hq : 0 <= q) by (apply Z.div_pos; lia).
  apply (run_epochs_projection cfg t tbs vbs loggings
           (should_log cfg) loggings_app reports_no_logging
           (loggings_boundary cfg t) ltac:(lia)) in H.
  cbn [initial_state tr trace global_step loggings app] in H. fold q in H.
  rewrite H. split.
  - rewrite schedule_steps by exact Hq. rewrite Z2Nat.id by exact He.
    rewrite (Z.mul_comm (num_train_epochs cfg)). reflexivity.
  - intros e g Hin. apply schedule_epochs in Hin; [|exact Hq].
    rewrite Z2Nat.id in Hin by exact He. destruct Hin as (Hr & Hg & _).
    rewrite Z.sub_0_r in Hg. lia.
Qed.

(** X7.  The scheduler is stepped once with every optimizer step and is
    otherwise left alone: when the loops complete it has received exactly
    [t_total] steps, the number of training steps it was built for, and
    still has the warm-up length of line 39. *)
Theorem scheduler_keeps_pace (cfg : config) (tbs vbs : list Batch)
    (m : Model) (ls : Q) (o : Optim) (stf : state) :
  1 <= gradient_accumulation_steps cfg -> 0 <= num_train_epochs cfg ->
  train_loop' cfg tbs vbs m ls o = Returns stf ->
  let t := Z.of_nat (length tbs) / gradient_accumulation_steps cfg
           * num_train_epochs cfg in
  scheduler (tr stf) = mkScheduler (warmup_steps t) t t
  /\ last_epoch (scheduler (tr stf)) = global_step (tr stf).
Proof.
  intros Ha He H t. pose proof H as Hinv.
  apply train_loop_inv in Hinv; [|lia|exact He]. cbv zeta in Hinv.
  destruct Hinv as (Hgs & _). fold t in Hgs.
  unfold train_loop in H. rewrite t_total_value in H by lia.
  cbn [Py.bind] in H. fold t in H.
  apply run_epochs_scheduler in H; [|lia].
  cbn [initial_state tr scheduler global_step get_cosine_schedule_with_warmup
         last_epoch num_warmup_steps num_training_steps] in H.
  destruct H as (Hle & Hw & Hn).
  destruct (scheduler (tr stf)) as [w n l]. cbn in *.
  split; [f_equal; lia | lia].
Qed.

(** X8.  After an epoch, [train_img_acc] and [val_img_acc] are at most the
    numbers of training and validation batches: each batch adds at most 1,
    whatever its size. *)
Theorem accuracy_counts_at_most_batches (cfg : config) (t : Z)
    (tbs vbs : list Batch) (epoch : Z) (st st' : state) :
  1 <= gradient_accumulation_steps cfg ->
  run_epoch' cfg t tbs vbs epoch st = Returns st' ->
  0 <= train_img_acc (ep st') <= Z.of_nat (length tbs)
  /\ 0 <= val_img_acc (ep st') <= Z.of_nat (length vbs).
Proof.
  intros Ha H. apply run_epoch_full in H; [|lia].
  destruct H as (_ & Ht & Hv & _). split; assumption.
Qed.

(** The sums of a validation pass: every batch is evaluated with the same
    training state, and its loss, image loss, text loss and match count
    are added, in order, to the accumulators. *)
Lemma valid_batches_sums (cfg : config) (bs : list Batch) :
  forall (idx : Z) (st st' : state),
    valid_batches' cfg idx bs st = Returns st' ->
    exists lcs : list loss_components,
      Forall2 (fun b lc => loss_engine' cfg (tr st) false b = Returns lc) bs lcs
      /\ valid_loss (ep st') = fold_left Qplus (map loss lcs) (valid_loss (ep st))
      /\ valid_img (ep st') = fold_left Qplus (map image_loss lcs) (valid_img (ep st))
      /\ valid_txt (ep st') = fold_left Qplus (map text_loss lcs) (valid_txt (ep st))
      /\ val_img_acc (ep st') = fold_left Z.add (map matches lcs) (val_img_acc (ep st)).
Proof.
  induction bs as [|b bs IH]; intros idx st st' H.
  - cbn in H. injection H as <-. exists []. repeat split. constructor.
  - cbn in H. inv_bind H. unfold valid_batch in E. inv_bind E.
    injection E as <-. apply IH in H.
    cbn [tr ep valid_loss valid_img valid_txt val_img_acc] in H.
    destruct H as (lcs & Hall & Hl & Hi & Ht & Ha).
    exists (a0 :: lcs). split; [constructor; assumption|].
    cbn [map fold_left]. repeat split; assumption.
Qed.

(** X9.  A validation pass over [M >= 1] batches that completes has
    evaluated every batch with the training state it started from;
    [valid_loss], [valid_img], [valid_txt] and [val_img_acc] are the sums,
    taken from 0 in the order of the batches, of the losses, image losses,
    text losses and match counts of the batches; [final_step] is [M - 1];
    and the pass ends with the record of line 168, which carries
    [valid_loss / M] and [val_img_acc]. *)
Theorem validation_report (cfg : config) (vbs : list Batch) (st st' : state) :
  vbs <> [] ->
  validate' cfg vbs st = Returns st' ->
  exists lcs : list loss_components,
    Forall2 (fun b lc => loss_engine' cfg (tr st) false b = Returns lc) vbs lcs
    /\ valid_loss (ep st') = fold_left Qplus (map loss lcs) 0%Q
    /\ valid_img (ep st') = fold_left Qplus (map image_loss lcs) 0%Q
    /\ valid_txt (ep st') = fold_left Qplus (map text_loss lcs) 0%Q
    /\ val_img_acc (ep st') = fold_left Z.add (map matches lcs) 0
    /\ final_step (ep st') = Some (Z.of_nat (length vbs) - 1)
    /\ trace st'
       = trace st ++ (if wandb cfg then [WandbLog] else [])
         ++ [ValidInfo (valid_loss (ep st') / inject_Z (Z.of_nat (length vbs)))
               (val_img_acc (ep st'))].
Proof.
  intros Hne H. pose proof H as Hfull. apply validate_full in Hfull.
  destruct Hfull as (_ & _ & _ & _ & (f & Hf & Hlen & _ & Htr) & _).
  specialize (Hlen Hne). subst f.
  unfold validate in H. inv_bind H.
  apply valid_batches_sums in E.
  cbn [tr ep valid_loss valid_img valid_txt val_img_acc] in E.
  destruct E as (lcs & Hall & Hl & Hi & Ht & Ha).
  destruct (final_step (ep a)) as [f|]; [|discriminate H].
  injection H as <-. cbn [ep] in *.
  exists lcs. repeat split; try assumption.
  rewrite Htr. do 6 f_equal. lia.
Qed.

(** X10.  [train] returns only from a run that made at least one optimizer
    step: then there was a GPU, the logging interval was not 0, the
    validation loader was not empty, every epoch had at least
    [gradient_accumulation_steps] batches, and the pair returned is
    [t_total] with the accumulated loss divided by it. *)
Theorem train_returns_only_after_steps (cfg : config) (tbs vbs : list Batch)
    (m : Model) (ls : Q) (o : Optim) (g : Z) (avg : Q) :
  1 <= gradient_accumulation_steps cfg ->
  train' cfg tbs vbs m ls o = Returns (g, avg) ->
  g = Z.of_nat (length tbs) / gradient_accumulation_steps cfg * num_train_epochs cfg
  /\ 1 <= g
  /\ 1 <= num_train_epochs cfg
  /\ gradient_accumulation_steps cfg <= Z.of_nat (length tbs)
  /\ 1 <= n_gpu cfg
  /\ logging_steps cfg <> 0
  /\ vbs <> []
  /\ exists stf, train_loop' cfg tbs vbs m ls o = Returns stf
                 /\ avg = (global_loss (tr stf) / inject_Z g)%Q.
Proof.
  intros Ha H. unfold train in H. inv_bind H. rename a into stf.
  unfold Py.truediv in H.
  destruct (Z.eqb_spec (global_step (tr stf)) 0) as [H0|Hnz]; [discriminate H|].
  cbn [Py.bind] in H. injection H as <- <-.
  set (q := Z.of_nat (length tbs) / gradient_accumulation_steps cfg).
  assert (Hq : 0 <= q) by (apply Z.div_pos; lia).
  pose proof E as Hrun. unfold train_loop in Hrun.
  rewrite t_total_value in Hrun by lia. cbn [Py.bind] in Hrun. fold q in Hrun.
  destruct (Z.to_nat (num_train_epochs cfg)) as [|n] eqn:Hn.
  { cbn in Hrun. injection Hrun as <-. cbn in Hnz. lia. }
  assert (He : 1 <= num_train_epochs cfg) by lia.
  pose proof E as Hinv. apply train_loop_inv in Hinv; [|lia|lia].
  cbv zeta in Hinv. destruct Hinv as (Hgs & _). fold q in Hgs.
  assert (Hq1 : 1 <= q) by nia.
  assert (Hlen : gradient_accumulation_steps cfg <= Z.of_nat (length tbs)).
  { destruct (Z.lt_ge_cases (Z.of_nat (length tbs)) (gradient_accumulation_steps cfg))
      as [Hlt|Hge]; [|exact Hge].
    unfold q in Hq1. rewrite Z.div_small in Hq1 by lia. lia. }
  cbn [run_epochs] in Hrun. inv_bind Hrun. rename a into st1.
  pose proof E0 as Hstep. apply run_epoch_inv in Hstep; [|lia].
  cbv zeta in Hstep. destruct Hstep as (_ & Hgs1 & _). fold q in Hgs1.
  apply run_epoch_full in E0; [|lia].
  destruct E0 as (_ & _ & _ & _ & _ & _ & Hlog & Hgpu & Hval).
  cbn [initial_state tr ep global_step final_step] in *.
  assert (Htbs : tbs <> []) by (destruct tbs; [cbn in Hlen; lia | discriminate]).
  split; [exact Hgs|]. split; [nia|]. split; [exact He|]. split; [exact Hlen|].
  split; [apply Hgpu; left; exact Htbs|]. split; [apply Hlog; lia|].
  split; [apply Hval; reflexivity|].
  exists stf. split; reflexivity.
Qed.

(** X11.  What the clamp of lines 109-112 stores at a boundary, given the
    raw logit scale [ls] that the optimizer step left: 0 when [ls] is
    negative, [ls] itself when it lies in [[0, 4.6052]], 4.6052 when it is
    larger.  An iteration that is no boundary leaves the logit scale as it
    was. *)
Theorem logit_scale_saturates (cfg : config) (t epoch : Z) (st st' : state)
    (step : Z) (b : Batch) :
  train_batch' cfg t epoch st step b = Returns st' ->
  ((step + 1) mod gradient_accumulation_steps cfg <> 0 ->
   logit_scale (tr st') = logit_scale (tr st))
  /\ ((step + 1) mod gradient_accumulation_steps cfg = 0 ->
      forall o m ls,
        optimizer_step (optimizer (tr st))
          (backward (model (tr st)) (logit_scale (tr st)) b) (logit_scale (tr st))
        = (o, m, ls) ->
        ((ls < 0)%Q -> (logit_scale (tr st') == 0)%Q)
        /\ ((0 <= ls <= logit_scale_max)%Q -> (logit_scale (tr st') == ls)%Q)
        /\ ((logit_scale_max < ls)%Q -> (logit_scale (tr st') == logit_scale_max)%Q)).
Proof.
  intros H. split.
  - intros Hnd. apply train_batch_full in H. cbv zeta in H.
    destruct H as (lc & _ & _ & _ & _ & _ & Hls).
    apply Hls. apply Z.eqb_neq. exact Hnd.
  - intros Hd o m ls Hopt. apply train_batch_inv in H. cbv zeta in H.
    destruct H as (_ & _ & _ & _ & _ & _ & Hls).
    rewrite (Hls ltac:(rewrite Hd; reflexivity) o m ls Hopt). unfold clamp.
    assert (Hmax : (0 <= logit_scale_max)%Q) by discriminate.
    repeat split.
    + intros Hneg. rewrite Q.max_r by (apply Qlt_le_weak; exact Hneg).
      apply Q.min_l. exact Hmax.
    + intros [H0 H1]. rewrite Q.max_l by exact H0. apply Q.min_l. exact H1.
    + intros Hbig. rewrite Q.max_l by (apply Qle_trans with logit_scale_max;
        [exact Hmax | apply Qlt_le_weak; exact Hbig]).
      apply Q.min_r. apply Qlt_le_weak. exact Hbig.
Qed.

End OrchestratorMore.

(** ** More about [save_checkpoint] and the warm-up *)

Module CheckpointMore.

Import Checkpoint CheckpointFacts.

(** X14.  What [save_checkpoint] does depends only on which of the first
    ten attempts fail: not on what they raise, nor on what [torch.save]
    would do after the tenth. *)
Theorem save_checkpoint_ignores_what_is_raised (f g : nat -> outcome unit) :
  (forall k, (k < 10)%nat -> (succeeded f k <-> succeeded g k)) ->
  save_checkpoint f = save_checkpoint g.
Proof.
  intros Hfg. unfold save_checkpoint.
  destruct (save_loop_after_failures f 10 0 [] eq_refl ltac:(intros j Hj; lia) _ eq_refl)
    as [(k & Hk & Hs & Hf & Hr)|[Hf Hr]];
  destruct (save_loop_after_failures g 10 0 [] eq_refl ltac:(intros j Hj; lia) _ eq_refl)
    as [(k' & Hk' & Hs' & Hf' & Hr')|[Hf' Hr']];
  change (Z.of_nat 0) with 0 in Hr, Hr'; rewrite Hr, Hr'.
  - destruct (Nat.lt_trichotomy k k') as [Hlt|[->|Hgt]]; [exfalso| reflexivity |exfalso].
    + apply (failed_not_succeeded g k); [apply Hf'; exact Hlt | apply Hfg; [lia | exact Hs]].
    + apply (failed_not_succeeded f k'); [apply Hf; exact Hgt | apply Hfg; [lia | exact Hs']].
  - exfalso. apply (failed_not_succeeded g k); [apply Hf'; lia | apply Hfg; [lia | exact Hs]].
  - exfalso. apply (failed_not_succeeded f k'); [apply Hf; lia | apply Hfg; [lia | exact Hs']].
  - reflexivity.
Qed.

(** Three failures of two kinds, against three failures of one kind and a
    save that would fail again from the tenth attempt on. *)
Lemma save_checkpoint_ignores_what_is_raised_witness :
  save_checkpoint (fun k => match k with
                            | 0%nat => Raises ZeroDivisionError
                            | 1%nat | 2%nat => Raises RuntimeError
                            | _ => Returns tt
                            end)
  = save_checkpoint (fun k => if ((3 <=? k) && (k <? 10))%nat
                              then Returns tt else Raises RuntimeError).
Proof.
  apply save_checkpoint_ignores_what_is_raised.
  intros k Hk.
  do 10 (destruct k as [|k];
         [split; intros [u Hu]; try discriminate Hu; exists tt; reflexivity|]).
  lia.
Defined.

End CheckpointMore.

(** X15.  For a [t_total] from 0 to below [2^52], the warm-up of line 39
    is [t_total // 5], in binary64 as in the exact model; it is below
    [t_total] as soon as there is one training step, as the scheduler
    needs. *)
Theorem warmup_is_a_fifth (t : Z) :
  0 <= t < 2 ^ 52 ->
  Float64.warmup_steps t = Some (t / 5)
  /\ warmup_steps t = t / 5
  /\ 0 <= warmup_steps t <= t
  /\ (1 <= t -> warmup_steps t < t).
Proof.
  intros Ht. split; [apply Float64Facts.float_warmup_is_a_fifth; exact Ht|].
  destruct Ht as [Ht _].
  assert (Hw : warmup_steps t = t / 5).
  { unfold warmup_steps, Py.int, Qmult, inject_Z. cbn [Qnum Qden].
    rewrite Z.quot_div_nonneg by lia.
    change (Z.pos (100 * 1)) with (20 * 5).
    apply Z.div_mul_cancel_l; lia. }
  rewrite Hw. split; [reflexivity|].
  pose proof (Z.div_pos t 5 Ht ltac:(lia)).
  pose proof (Z.mul_div_le t 5 ltac:(lia)).
  split; [lia|]. intros H1. lia.
Qed.

Lemma warmup_is_a_fifth_witness :
  Float64.warmup_steps 36 = Some 7 /\ warmup_steps 36 = 7.
Proof.
  destruct (warmup_is_a_fifth 36 ltac:(lia)) as (Hf & Hw & _).
  split; [exact Hf | exact Hw].
Defined.

(** ** The further properties on concrete runs *)

(** No GPU, one batch of each kind, one epoch. *)
Lemma train_needs_a_gpu_witness :
  Stub.train (mkConfig 0 1 1 1 0 false) [tt] [tt] = Raises UnboundLocalError.
Proof.
  apply (train_needs_a_gpu unit unit unit Stub.features Stub.texp Stub.cross_entropy
           Stub.backward Stub.optimizer_step Stub.zero_grad
           (mkConfig 0 1 1 1 0 false) [tt] [tt] tt 0%Q tt);
    cbn; lia.
Defined.

(** A configuration that asks for one GPU, on a machine that has none. *)
Lemma main_fails_on_cpu_witness :
  main Stub.features Stub.texp Stub.cross_entropy Stub.backward Stub.optimizer_step
    Stub.zero_grad (Stub.cfg 1 1 0) 0 [tt] [tt] tt 0%Q tt
  = Raises UnboundLocalError.
Proof.
  apply (main_fails_on_cpu unit unit unit Stub.features Stub.texp Stub.cross_entropy
           Stub.backward Stub.optimizer_step Stub.zero_grad
           (Stub.cfg 1 1 0) 0 [tt] [tt] tt 0%Q tt);
    cbn; lia.
Defined.

(** Three batches, an accumulation factor of 2 and [logging_steps = 0]. *)
Lemma zero_logging_steps_raises_witness :
  Stub.train (mkConfig 1 2 1 0 0 false) [tt; tt; tt] [tt] = Raises ZeroDivisionError.
Proof.
  apply (zero_logging_steps_raises unit unit unit Stub.features Stub.texp
           Stub.cross_entropy Stub.backward Stub.optimizer_step Stub.zero_grad
           (mkConfig 1 2 1 0 0 false) [tt; tt; tt] [tt] tt 0%Q tt);
    [reflexivity | cbn; lia | cbn; lia | cbn; lia | exact stub_features_nonempty].
Defined.

Lemma empty_validation_loader_raises_witness :
  Stub.train (Stub.cfg 1 1 0) [tt] [] = Raises UnboundLocalError.
Proof.
  apply (empty_validation_loader_raises unit unit unit Stub.features Stub.texp
           Stub.cross_entropy Stub.backward Stub.optimizer_step Stub.zero_grad
           (Stub.cfg 1 1 0) [tt] tt 0%Q tt);
    [cbn; lia | cbn; lia | cbn; lia | cbn; lia | exact stub_features_nonempty].
Defined.

(** Five batches, an accumulation factor of 2, three epochs and
    [save_steps = 4]: steps 4 (epoch 1) and 6 (the last one, epoch 2). *)
Lemma checkpoints_follow_save_steps_witness :
  exists stf, Stub.train_loop (Stub.cfg 2 3 4) [tt; tt; tt; tt; tt] [tt] = Returns stf
              /\ map snd (checkpoints (trace stf)) = [4; 6].
Proof.
  unfold Stub.train_loop.
  destruct (train_loop Stub.features Stub.texp Stub.cross_entropy Stub.backward
              Stub.optimizer_step Stub.zero_grad
              (Stub.cfg 2 3 4) [tt; tt; tt; tt; tt] [tt] tt 0%Q tt)
    as [stf|e] eqn:H;
    [|vm_compute in H; discriminate H].
  exists stf. split; [reflexivity|].
  pose proof (checkpoints_follow_save_steps unit unit unit Stub.features Stub.texp
                Stub.cross_entropy Stub.backward Stub.optimizer_step Stub.zero_grad
                (Stub.cfg 2 3 4) [tt; tt; tt; tt; tt] [tt] tt 0%Q tt stf
                ltac:(cbn; lia) ltac:(cbn; lia) H) as Hs.
  cbv zeta in Hs. destruct Hs as [Hs _]. rewrite Hs. reflexivity.
Defined.

(** The same data with [logging_steps = 4]: records at steps 4 and 8 of 8. *)
Lemma logging_follows_logging_steps_witness :
  exists stf, Stub.train_loop (mkConfig 1 2 4 4 0 false) [tt; tt; tt; tt; tt] [tt]
              = Returns stf
              /\ map snd (loggings (trace stf)) = [4; 8].
Proof.
  unfold Stub.train_loop.
  destruct (train_loop Stub.features Stub.texp Stub.cross_entropy Stub.backward
              Stub.optimizer_step Stub.zero_grad
              (mkConfig 1 2 4 4 0 false) [tt; tt; tt; tt; tt] [tt] tt 0%Q tt)
    as [stf|e] eqn:H; [|vm_compute in H; discriminate H].
  exists stf. split; [reflexivity|].
  pose proof (logging_follows_logging_steps unit unit unit Stub.features Stub.texp
                Stub.cross_entropy Stub.backward Stub.optimizer_step Stub.zero_grad
                (mkConfig 1 2 4 4 0 false) [tt; tt; tt; tt; tt] [tt] tt 0%Q tt stf
                ltac:(cbn; lia) ltac:(cbn; lia) H) as Hs.
  cbv zeta in Hs. destruct Hs as [Hs _]. rewrite Hs. reflexivity.
Defined.

Lemma scheduler_keeps_pace_witness :
  exists stf, Stub.train_loop (Stub.cfg 2 3 0) [tt; tt; tt; tt; tt] [tt] = Returns stf
              /\ scheduler (tr stf) = mkScheduler 1 6 6.
Proof.
  unfold Stub.train_loop.
  destruct (train_loop Stub.features Stub.texp Stub.cross_entropy Stub.backward
              Stub.optimizer_step Stub.zero_grad
              (Stub.cfg 2 3 0) [tt; tt; tt; tt; tt] [tt] tt 0%Q tt)
    as [stf|e] eqn:H;
    [|vm_compute in H; discriminate H].
  exists stf. split; [reflexivity|].
  pose proof (scheduler_keeps_pace unit unit unit Stub.features Stub.texp
                Stub.cross_entropy Stub.backward Stub.optimizer_step Stub.zero_grad
                (Stub.cfg 2 3 0) [tt; tt; tt; tt; tt] [tt] tt 0%Q tt stf
                ltac:(cbn; lia) ltac:(cbn; lia) H) as Hs.
  cbv zeta in Hs. destruct Hs as [Hs _]. rewrite Hs. reflexivity.
Defined.

(** One epoch of three training batches and two validation batches. *)
Lemma accuracy_counts_at_most_batches_witness :
  exists st', run_epoch Stub.features Stub.texp Stub.cross_entropy Stub.backward
                Stub.optimizer_step Stub.zero_grad (Stub.cfg 1 1 0) 3
                [tt; tt; tt] [tt; tt] 0 Stub.start = Returns st'
              /\ 0 <= train_img_acc (ep st') <= 3
              /\ 0 <= val_img_acc (ep st') <= 2.
Proof.
  destruct (run_epoch Stub.features Stub.texp Stub.cross_entropy Stub.backward
              Stub.optimizer_step Stub.zero_grad (Stub.cfg 1 1 0) 3
              [tt; tt; tt] [tt; tt] 0 Stub.start) as [st'|e] eqn:H;
    [|vm_compute in H; discriminate H].
  exists st'. split; [reflexivity|].
  apply (accuracy_counts_at_most_batches unit unit unit Stub.features Stub.texp
           Stub.cross_entropy Stub.backward Stub.optimizer_step Stub.zero_grad
           (Stub.cfg 1 1 0) 3 [tt; tt; tt] [tt; tt] 0 Stub.start st'
           ltac:(cbn; lia) H).
Defined.

Lemma validation_report_witness :
  exists st', Stub.validate (Stub.cfg 1 1 0) [tt; tt] = Returns st'
              /\ final_step (ep st') = Some 1.
Proof.
  destruct (Stub.validate (Stub.cfg 1 1 0) [tt; tt]) as [st'|e] eqn:H;
    [|vm_compute in H; discriminate H].
  exists st'. split; [reflexivity|].
  destruct (validation_report unit unit unit Stub.features Stub.texp Stub.cross_entropy
              (Stub.cfg 1 1 0) [tt; tt] Stub.start st' ltac:(discriminate) H)
    as (lcs & _ & _ & _ & _ & _ & Hf & _).
  exact Hf.
Defined.

Lemma train_returns_only_after_steps_witness :
  exists g avg, Stub.train (Stub.cfg 2 2 0) [tt; tt; tt; tt; tt] [tt] = Returns (g, avg)
                /\ g = 4.
Proof.
  unfold Stub.train.
  destruct (train Stub.features Stub.texp Stub.cross_entropy Stub.backward
              Stub.optimizer_step Stub.zero_grad
              (Stub.cfg 2 2 0) [tt; tt; tt; tt; tt] [tt] tt 0%Q tt) as [[g avg]|e] eqn:H;
    [|vm_compute in H; discriminate H].
  exists g, avg. split; [reflexivity|].
  apply (train_returns_only_after_steps unit unit unit Stub.features Stub.texp
           Stub.cross_entropy Stub.backward Stub.optimizer_step Stub.zero_grad
           (Stub.cfg 2 2 0) [tt; tt; tt; tt; tt] [tt] tt 0%Q tt g avg
           ltac:(cbn; lia) H).
Defined.

(** The optimizer of [Stub] leaves the raw scale at 5: 4.6052 is stored. *)
Lemma logit_scale_saturates_witness :
  exists st', Stub.first_step (Stub.cfg 1 1 0) = Returns st'
              /\ (logit_scale (tr st') == logit_scale_max)%Q.
Proof.
  destruct (Stub.first_step (Stub.cfg 1 1 0)) as [st'|e] eqn:H;
    [|vm_compute in H; discriminate H].
  exists st'. split; [reflexivity|].
  destruct (logit_scale_saturates unit unit unit Stub.features Stub.texp
              Stub.cross_entropy Stub.backward Stub.optimizer_step Stub.zero_grad
              (Stub.cfg 1 1 0) 1 0 Stub.start st' 0 tt H) as [_ Hb].
  apply (Hb eq_refl tt tt (0 + 5)%Q eq_refl). reflexivity.
Defined.
